(** * oidcfinder: the batch probing engine of [main.go]

    A shallow embedding of [processFile], [worker], [testOIDCWithTimeout]
    and [appendToFile], and the properties of the batch run; then the
    other actions, [listDomains], [addDomain], [removeDomain] and
    [removeAny], and the choice of the action in [main].

    - Go strings are byte strings ([string]); Go [int] values that only take
      part in comparisons are [Z].
    - The [domains] table is a finite map from the primary key [name] to the
      remaining columns.
    - Everything the program cannot decide by itself (the outcome of the HTTP
      exchange, a failing SQL statement, the database clock, a failing file
      operation) is supplied by an [oracle] that labels the step.
    - The goroutines of [processFile] (main, the workers, the closer of the
      result channel) are program counters in one [state]; one [action] runs
      one atomic step of one goroutine, a [list action] is a schedule. A
      step is one operation on shared state: a channel operation, a
      statement on the database (the section under [dbMutex]), the append
      to the output file (the section under [outMutex]), a print; the probe
      shares nothing and is one step too.
    - What a run prints, logs, probes, writes to the table and sends is
      recorded, in order, in the [trace] of the state. *)

From stdpp Require Import gmap strings list fin_maps sorting.
From Stdlib Require Import ZArith Lia.

(** ** Strings *)

Module Strings.

(** The newline written by the format strings. *)
Definition nl : string := String (Ascii.ascii_of_nat 10) EmptyString.

(** [strings.Contains(s, substr)]. *)
Fixpoint Contains (s substr : string) : bool :=
  String.prefix substr s ||
  match s with
  | EmptyString => false
  | String _ s' => Contains s' substr
  end.

(** [%v] of a [bool]. *)
Definition fmt_bool (b : bool) : string := if b then "true" else "false".

(** Bytes [0..n) of [s], what a short write leaves behind. *)
Fixpoint take_bytes (n : nat) (s : string) : string :=
  match n, s with
  | S n', String c s' => String c (take_bytes n' s')
  | _, _ => EmptyString
  end.

End Strings.

(** ** The probe: [testOIDCWithTimeout] *)

Module Probe.
Import Strings.

(** What the network does with the request of one probe. *)
Inductive exchange :=
| RequestError
    (* http.NewRequestWithContext returned an error: nothing was sent *)
| DoError (deadline_exceeded : bool)
    (* client.Do returned an error; the flag is
       [ctx.Err() == context.DeadlineExceeded] *)
| Response (StatusCode : Z) (ContentType : string).
    (* client.Do returned a response; [ContentType] is
       [resp.Header.Get("Content-Type")] *)

Definition well_known_url (domain : string) : string :=
  "https://" +:+ domain +:+ "/.well-known/openid-configuration".

(** Returns [(oidcURL, hasOIDC, timedOut)]. *)
Definition testOIDCWithTimeout (domain : string) (timeoutSecs : Z)
    (x : exchange) : string * bool * bool :=
  let url := well_known_url domain in
  match x with
  | RequestError => ("", false, false)
  | DoError true => ("", false, true)
  | DoError false => ("", false, false)
  | Response StatusCode ct =>
      if (StatusCode =? 200)%Z && Contains ct "application/json"
      then (url, true, false)
      else ("", false, false)
  end.

(** The log line of the probe, if it writes one. *)
Definition probe_log (domain : string) (x : exchange) : list string :=
  match x with
  | DoError true => ["Timeout testing " +:+ domain]
  | _ => []
  end.

(** The four outcomes of a probe, by the [return] that produces them:
    [Found] and [NotFound] are the two returns after a response, [TimedOut]
    the return under [ctx.Err() == context.DeadlineExceeded], and
    [TransportError] the two other error returns. *)
Inductive classification := Found | NotFound | TransportError | TimedOut.

#[global] Instance classification_eq_dec : EqDecision classification.
Proof. solve_decision. Defined.

Definition classify (x : exchange) : classification :=
  match x with
  | RequestError => TransportError
  | DoError true => TimedOut
  | DoError false => TransportError
  | Response StatusCode ct =>
      if (StatusCode =? 200)%Z && Contains ct "application/json"
      then Found else NotFound
  end.

End Probe.

(** ** The store: table [domains] *)

Module Store.

(** Go's [error] values that the batch run meets. *)
Inductive error :=
| ErrNoRows                  (* sql.ErrNoRows *)
| ErrOther (msg : string).   (* any other error, with its message *)

Definition Error (e : error) : string :=
  match e with
  | ErrNoRows => "sql: no rows in result set"
  | ErrOther msg => msg
  end.

(** The columns of a row besides the key [name]. *)
Record row := Row { has_oidc : bool; tested_at : string }.

(** [db.QueryRow(`SELECT has_oidc FROM domains WHERE name = ?`, name)
    .Scan(&exists)]: the value of [exists] and the error. [fault] is the
    error of a statement that could not run. *)
Definition QueryRow_Scan (db : gmap string row) (fault : option string)
    (name : string) : bool * option error :=
  match fault with
  | Some msg => (false, Some (ErrOther msg))
  | None =>
      match db !! name with
      | Some r => (has_oidc r, None)
      | None => (false, Some ErrNoRows)
      end
  end.

(** [db.Exec(`INSERT INTO domains(name, has_oidc) VALUES(?, ?) ON
    CONFLICT(name) DO UPDATE SET has_oidc=excluded.has_oidc,
    tested_at=CURRENT_TIMESTAMP`, name, v)]; [now] is CURRENT_TIMESTAMP.
    A statement that fails changes nothing. *)
Definition Exec_upsert (db : gmap string row) (fault : option string)
    (now : string) (name : string) (v : bool)
    : gmap string row * option error :=
  match fault with
  | Some msg => (db, Some (ErrOther msg))
  | None => (<[name := Row v now]> db, None)
  end.

End Store.

(** ** The output file: [appendToFile] *)

Module OutFile.
Import Strings.

Inductive file_outcome :=
| FileOk
| OpenFails (msg : string)
| WriteFails (written : nat) (msg : string).

(** The file is [None] while it does not exist. Returns the file and the
    lines logged. *)
Definition appendToFile (file : option string) (filename content : string)
    (o : file_outcome) : option string * list string :=
  let old := default "" file in
  match o with
  | OpenFails msg =>
      (file, ["Failed to open output file " +:+ filename +:+ ": " +:+ msg])
  | WriteFails n msg =>
      (Some (old +:+ take_bytes n (content +:+ nl)),
       ["Failed to write to output file " +:+ filename +:+ ": " +:+ msg])
  | FileOk => (Some (old +:+ content +:+ nl), [])
  end.

End OutFile.

(** ** Reading the input file: the first loop of [processFile] *)

Module Input.

Section Scan.
(** [strings.TrimSpace], a function of Go's library. *)
Variable TrimSpace : string → string.

(** One iteration of [for scanner.Scan()], on [scanner.Text() = line]. *)
Definition scan_line (prefix : string) (domains : list string)
    (line : string) : list string :=
  let domain := TrimSpace line in
  if String.eqb domain "" then domains
  else
    let domain :=
      if negb (String.eqb prefix "") then prefix +:+ "." +:+ domain
      else domain in
    domains ++ [domain].

Definition read_domains (prefix : string) (lines : list string)
    : list string :=
  fold_left (scan_line prefix) lines [].
End Scan.

(** What [os.Open] and the scanner give: the file cannot be opened, or its
    lines and whether [scanner.Err()] is an error. *)
Inductive source :=
| CannotOpen
| Scanned (lines : list string) (scan_err : bool).

End Input.

(** ** The batch run: [processFile] and [worker] *)

Module Batch.
Import Strings Probe Store OutFile.

Record domainResult := Result {
  domain : string;
  hasOIDC : bool;
  oidcURL : string;
  timedOut : bool
}.

(** The line the loop over [resultChan] prints for a result. *)
Definition report_line (result : domainResult) : string :=
  if timedOut result then
    domain result +:+ ": request timed out (skipped) ⏰" +:+ nl
  else if hasOIDC result then
    domain result +:+ ": OIDC endpoint found ✅" +:+ nl
  else
    domain result +:+ ": no OIDC endpoint ❌" +:+ nl.

(** The line a worker prints for a domain it finds in the table. *)
Definition known_line (domain : string) (exists_ : bool) : string :=
  domain +:+ ": already known (has_oidc=" +:+ fmt_bool exists_ +:+ ")" +:+ nl.

Definition insert_failed_line (domain : string) (e : error) : string :=
  "Failed to insert " +:+ domain +:+ ": " +:+ Error e.

(** Program counter of a [worker] goroutine. *)
Inductive wpc :=
| WRecv                                   (* for domain := range domainChan *)
| WQuery (domain : string)                (* Lock; QueryRow.Scan; Unlock *)
| WKnown (domain : string) (exists_ : bool)   (* Printf; continue *)
| WTest (domain : string)                 (* testOIDCWithTimeout *)
| WExec (result : domainResult)           (* Lock; Exec; Unlock *)
| WExecd (result : domainResult) (err : option error)
                                          (* if err != nil; if hasOIDC && .. *)
| WAppend (result : domainResult)         (* Lock; appendToFile; Unlock *)
| WSend (result : domainResult)           (* resultChan <- result *)
| WDone.                                  (* the deferred wg.Done() has run *)

(** Program counter of [processFile] from the loop that fills
    [domainChan]. *)
Inductive mpc :=
| MEnqueue (rest : list string)   (* domainChan <- domain; then close *)
| MSpawn (i : Z)                  (* for i := 0; i < parallel; i++ *)
| MRange                          (* for result := range resultChan *)
| MPrint (result : domainResult)  (* the Printf of the loop body *)
| MDone.                          (* processFile returns *)

(** Program counter of the goroutine [func() { wg.Wait(); close(..) }]. *)
Inductive cpc :=
| CNone       (* not started *)
| CWait       (* wg.Wait() *)
| CClose      (* close(resultChan) *)
| CDone.

(** The effects of a run besides the table and the output file, in the
    order they happen. *)
Inductive event :=
| EvKnown (domain : string) (exists_ : bool)     (* stdout, by a worker *)
| EvReport (result : domainResult)               (* stdout, by main *)
| EvLog (line : string)                          (* log.Printf *)
| EvProbe (domain : string) (x : exchange)       (* a call of the probe *)
| EvExec (name : string) (v : bool) (now : string) (err : option error)
                        (* the upsert statement, run at time [now] *)
| EvSend (result : domainResult).                (* resultChan <- result *)

Definition stdout_of (e : event) : list string :=
  match e with
  | EvKnown d v => [known_line d v]
  | EvReport r => [report_line r]
  | _ => []
  end.

Definition stdout (tr : list event) : list string := tr ≫= stdout_of.

Record state := State {
  main : mpc;
  closer : cpc;
  workers : list wpc;
  domainChan : list string;
  domainChan_closed : bool;
  resultChan : list domainResult;
  resultChan_closed : bool;
  wg : Z;                         (* the counter of the WaitGroup *)
  db : gmap string row;
  out : option string;            (* the file named [outFile] *)
  trace : list event
}.

(** The arguments of [processFile] that stay fixed during the run;
    [domains] is the slice read from the file, whose length is the
    capacity of both channels. *)
Record config := Config {
  domains : list string;
  outFile : string;
  parallel : Z;
  timeoutSecs : Z
}.

(** What the environment decides at a step of a worker. *)
Record oracle := Oracle {
  query_fault : option string;
  exch : exchange;
  exec_fault : option string;
  now : string;
  file : file_outcome
}.

Inductive action :=
| AMain
| ACloser
| AWorker (i : nat) (o : oracle).

(** A step either gives the next state, or is not enabled (the goroutine
    is blocked, has finished or does not exist), or panics. *)
Inductive result :=
| Ok (s : state)
| Stuck
| Crash (msg : string).

Definition set_main (m : mpc) (s : state) : state :=
  State m (closer s) (workers s) (domainChan s) (domainChan_closed s)
    (resultChan s) (resultChan_closed s) (wg s) (db s) (out s) (trace s).
Definition set_closer (c : cpc) (s : state) : state :=
  State (main s) c (workers s) (domainChan s) (domainChan_closed s)
    (resultChan s) (resultChan_closed s) (wg s) (db s) (out s) (trace s).
Definition set_workers (ws : list wpc) (s : state) : state :=
  State (main s) (closer s) ws (domainChan s) (domainChan_closed s)
    (resultChan s) (resultChan_closed s) (wg s) (db s) (out s) (trace s).
Definition set_domainChan (q : list string) (closed : bool) (s : state)
    : state :=
  State (main s) (closer s) (workers s) q closed
    (resultChan s) (resultChan_closed s) (wg s) (db s) (out s) (trace s).
Definition set_resultChan (q : list domainResult) (closed : bool)
    (s : state) : state :=
  State (main s) (closer s) (workers s) (domainChan s) (domainChan_closed s)
    q closed (wg s) (db s) (out s) (trace s).
Definition set_wg (n : Z) (s : state) : state :=
  State (main s) (closer s) (workers s) (domainChan s) (domainChan_closed s)
    (resultChan s) (resultChan_closed s) n (db s) (out s) (trace s).
Definition set_db (t : gmap string row) (s : state) : state :=
  State (main s) (closer s) (workers s) (domainChan s) (domainChan_closed s)
    (resultChan s) (resultChan_closed s) (wg s) t (out s) (trace s).
Definition set_out (f : option string) (s : state) : state :=
  State (main s) (closer s) (workers s) (domainChan s) (domainChan_closed s)
    (resultChan s) (resultChan_closed s) (wg s) (db s) f (trace s).
Definition emit (es : list event) (s : state) : state :=
  State (main s) (closer s) (workers s) (domainChan s) (domainChan_closed s)
    (resultChan s) (resultChan_closed s) (wg s) (db s) (out s)
    (trace s ++ es).
Definition set_worker (i : nat) (w : wpc) (s : state) : state :=
  set_workers (<[i := w]> (workers s)) s.

Section Steps.
Variable cfg : config.

(** [cap(domainChan)] and [cap(resultChan)]. *)
Definition capacity : nat := length (domains cfg).

(** [ch <- v] on a buffered channel. *)
Definition chan_send {A} (q : list A) (closed : bool) (v : A)
    : option (option (list A)) :=
  if closed then Some None                      (* panic *)
  else if length q <? capacity then Some (Some (q ++ [v]))
  else None.                                    (* blocks *)

Definition processFile_step (s : state) : result :=
  match main s with
  | MEnqueue (d :: rest) =>
      match chan_send (domainChan s) (domainChan_closed s) d with
      | Some (Some q) =>
          Ok (set_main (MEnqueue rest) (set_domainChan q false s))
      | Some None => Crash "send on closed channel"
      | None => Stuck
      end
  | MEnqueue [] =>
      if domainChan_closed s then Crash "close of closed channel"
      else Ok (set_main (MSpawn 0) (set_domainChan (domainChan s) true s))
  | MSpawn i =>
      if (i <? parallel cfg)%Z then
        (* wg.Add(1); go worker(...) *)
        Ok (set_main (MSpawn (i + 1))
              (set_wg (wg s + 1) (set_workers (workers s ++ [WRecv]) s)))
      else
        (* go func() { wg.Wait(); close(resultChan) }() *)
        Ok (set_main MRange (set_closer CWait s))
  | MRange =>
      match resultChan s with
      | r :: q =>
          Ok (set_main (MPrint r)
                (set_resultChan q (resultChan_closed s) s))
      | [] => if resultChan_closed s then Ok (set_main MDone s) else Stuck
      end
  | MPrint r => Ok (emit [EvReport r] (set_main MRange s))
  | MDone => Stuck
  end.

Definition closer_step (s : state) : result :=
  match closer s with
  | CNone => Stuck
  | CWait => if (wg s =? 0)%Z then Ok (set_closer CClose s) else Stuck
  | CClose =>
      if resultChan_closed s then Crash "close of closed channel"
      else Ok (set_closer CDone (set_resultChan (resultChan s) true s))
  | CDone => Stuck
  end.

Definition worker_step (i : nat) (o : oracle) (s : state) : result :=
  match workers s !! i with
  | None => Stuck
  | Some WRecv =>
      match domainChan s with
      | d :: q =>
          Ok (set_worker i (WQuery d)
                (set_domainChan q (domainChan_closed s) s))
      | [] =>
          if domainChan_closed s then
            if (wg s - 1 <? 0)%Z then
              Crash "sync: negative WaitGroup counter"
            else Ok (set_worker i WDone (set_wg (wg s - 1) s))
          else Stuck
      end
  | Some (WQuery d) =>
      let '(exists_, err) := QueryRow_Scan (db s) (query_fault o) d in
      match err with
      | None => Ok (set_worker i (WKnown d exists_) s)
      | Some _ => Ok (set_worker i (WTest d) s)
      end
  | Some (WKnown d exists_) =>
      Ok (emit [EvKnown d exists_] (set_worker i WRecv s))
  | Some (WTest d) =>
      let '(oidcURL, hasOIDC, timedOut) :=
        testOIDCWithTimeout d (timeoutSecs cfg) (exch o) in
      let result := Result d hasOIDC oidcURL timedOut in
      Ok (emit (EvProbe d (exch o) :: (EvLog <$> probe_log d (exch o)))
            (set_worker i
               (if negb timedOut then WExec result else WSend result) s))
  | Some (WExec r) =>
      let '(t, err) :=
        Exec_upsert (db s) (exec_fault o) (now o) (domain r) (hasOIDC r) in
      Ok (emit [EvExec (domain r) (hasOIDC r) (now o) err]
            (set_worker i (WExecd r err) (set_db t s)))
  | Some (WExecd r err) =>
      let logged :=
        match err with
        | Some e => [EvLog (insert_failed_line (domain r) e)]
        | None => []
        end in
      Ok (emit logged
            (set_worker i
               (if hasOIDC r && negb (String.eqb (outFile cfg) "")
                then WAppend r else WSend r) s))
  | Some (WAppend r) =>
      let '(f, logged) :=
        appendToFile (out s) (outFile cfg) (oidcURL r) (file o) in
      Ok (emit (EvLog <$> logged) (set_worker i (WSend r) (set_out f s)))
  | Some (WSend r) =>
      match chan_send (resultChan s) (resultChan_closed s) r with
      | Some (Some q) =>
          Ok (emit [EvSend r]
                (set_worker i WRecv (set_resultChan q false s)))
      | Some None => Crash "send on closed channel"
      | None => Stuck
      end
  | Some WDone => Stuck
  end.

Definition step (a : action) (s : state) : result :=
  match a with
  | AMain => processFile_step s
  | ACloser => closer_step s
  | AWorker i o => worker_step i o s
  end.

(** Running a schedule. *)
Fixpoint run (sched : list action) (s : state) : result :=
  match sched with
  | [] => Ok s
  | a :: sched' =>
      match step a s with
      | Ok s' => run sched' s'
      | r => r
      end
  end.

(** The state in which [processFile] has read the file and made the two
    channels. *)
Definition start (table : gmap string row) (f : option string) : state :=
  State (MEnqueue (domains cfg)) CNone [] [] false [] false 0 table f [].

End Steps.

(** [processFile] up to the channels: [None] is [log.Fatalf]. *)
Definition processFile (TrimSpace : string → string)
    (src : Input.source) (prefix outFile : string)
    (parallel timeoutSecs : Z) : option config :=
  match src with
  | Input.CannotOpen => None
  | Input.Scanned lines true => None
  | Input.Scanned lines false =>
      Some (Config (Input.read_domains TrimSpace prefix lines)
              outFile parallel timeoutSecs)
  end.

End Batch.

(** ** What a run leaves behind *)

Module Observe.
Import Strings Probe Store OutFile Batch.

Definition total (f : wpc → nat) (ws : list wpc) : nat :=
  sum_list_with f ws.

(** Workers that have not yet called [wg.Done()]. *)
Definition pending (w : wpc) : nat :=
  match w with WDone => 0 | _ => 1 end.

(** Workers that hold a domain taken from [domainChan]. *)
Definition busy (w : wpc) : nat :=
  match w with WRecv | WDone => 0 | _ => 1 end.

Definition sends (tr : list event) : list domainResult :=
  tr ≫= λ e, match e with EvSend r => [r] | _ => [] end.

Definition reports (tr : list event) : list domainResult :=
  tr ≫= λ e, match e with EvReport r => [r] | _ => [] end.

Definition probes (tr : list event) : list (string * exchange) :=
  tr ≫= λ e, match e with EvProbe d x => [(d, x)] | _ => [] end.

(** The result that main has received and not yet printed. *)
Definition in_hand (m : mpc) : list domainResult :=
  match m with MPrint r => [r] | _ => [] end.

(** The domains that main has not yet put into [domainChan]. *)
Definition unsent (m : mpc) : list string :=
  match m with MEnqueue rest => rest | _ => [] end.

(** The table after the upserts of a trace, and the row that the last
    successful upsert of [name] wrote. *)
Definition apply_exec (t : gmap string row) (e : event) : gmap string row :=
  match e with
  | EvExec n v now None => <[n := Row v now]> t
  | _ => t
  end.

Definition replay (tr : list event) (t : gmap string row)
    : gmap string row :=
  fold_left apply_exec tr t.

Definition persisted_by (name : string) (acc : option row) (e : event)
    : option row :=
  match e with
  | EvExec n v now None => if decide (n = name) then Some (Row v now) else acc
  | _ => acc
  end.

Definition last_persisted (name : string) (tr : list event) : option row :=
  fold_left (persisted_by name) tr None.

(** The outcomes of the probes of [d], oldest first. *)
Definition outcomes (d : string) (tr : list event) : list classification :=
  (λ p, classify p.2) <$> filter (λ p, p.1 = d) (probes tr).

Definition last_outcome (d : string) (tr : list event)
    : option classification :=
  last (outcomes d tr).

(** The result a worker builds from the probe of [d]. *)
Definition result_of (cfg : config) (d : string) (x : exchange)
    : domainResult :=
  let '(oidcURL, hasOIDC, timedOut) :=
    testOIDCWithTimeout d (timeoutSecs cfg) x in
  Result d hasOIDC oidcURL timedOut.

(** The name that a line of the file puts into the queue, if any. *)
Definition queued_name (TrimSpace : string → string) (prefix line : string)
    : option string :=
  let d := TrimSpace line in
  if String.eqb d "" then None
  else Some (if negb (String.eqb prefix "") then prefix +:+ "." +:+ d
             else d).

Definition no_query_fault (a : action) : Prop :=
  match a with
  | AWorker _ o => query_fault o = None
  | _ => True
  end.

End Observe.

(** ** Invariants of a run *)

Module Invariants.
Import Strings Probe Store OutFile Batch Observe.

(** The control invariant: where main is, which goroutines exist, what the
    counter of the WaitGroup counts, when the result channel is closed, how
    many domains are under way, and that the result channel is a queue. *)
Record wf (cfg : config) (s : state) : Prop := Wf {
  wf_main :
    match main s with
    | MEnqueue rest =>
        workers s = [] ∧ closer s = CNone ∧
        domainChan_closed s = false ∧
        domainChan s ++ rest = domains cfg ∧ trace s = [] ∧
        resultChan s = []
    | MSpawn i =>
        closer s = CNone ∧ domainChan_closed s = true ∧
        i = Z.of_nat (length (workers s)) ∧
        (i ≤ Z.max 0 (parallel cfg))%Z ∧
        (workers s = [] → domainChan s = domains cfg)
    | _ =>
        closer s ≠ CNone ∧ domainChan_closed s = true ∧
        Z.of_nat (length (workers s)) = Z.max 0 (parallel cfg)
    end;
  wf_wg : wg s = Z.of_nat (total pending (workers s));
  wf_closer : closer s = CClose ∨ closer s = CDone → wg s = 0%Z;
  wf_closed : resultChan_closed s = true ↔ closer s = CDone;
  wf_done : main s = MDone → resultChan s = [] ∧ closer s = CDone;
  wf_count :
    length (domainChan s) + length (unsent (main s)) +
    total busy (workers s) + length (sends (trace s)) ≤
    length (domains cfg);
  wf_fifo :
    sends (trace s) =
    reports (trace s) ++ in_hand (main s) ++ resultChan s
}.

(** A measure that every step decreases. *)
Definition weight_w (w : wpc) : nat :=
  match w with
  | WDone => 0
  | WRecv => 1
  | WKnown _ _ => 2
  | WSend _ => 4
  | WAppend _ => 5
  | WExecd _ _ => 6
  | WExec _ => 7
  | WTest _ => 8
  | WQuery _ => 9
  end.

Definition weight_m (cfg : config) (m : mpc) : nat :=
  match m with
  | MEnqueue rest => 11 * length rest + 5 + 2 * Z.to_nat (parallel cfg)
  | MSpawn i => 4 + 2 * Z.to_nat (parallel cfg - i)
  | MPrint _ => 2
  | MRange => 1
  | MDone => 0
  end.

Definition weight_c (c : cpc) : nat :=
  match c with CNone | CWait => 2 | CClose => 1 | CDone => 0 end.

Definition measure (cfg : config) (s : state) : nat :=
  weight_m cfg (main s) + weight_c (closer s) + total weight_w (workers s) +
  10 * length (domainChan s) + 2 * length (resultChan s).

(** Every result comes from a probe. *)
Definition probed (cfg : config) (tr : list event) (r : domainResult) : Prop :=
  ∃ x, (domain r, x) ∈ probes tr ∧
       testOIDCWithTimeout (domain r) (timeoutSecs cfg) x =
       (oidcURL r, hasOIDC r, timedOut r).

Definition wpc_probed (cfg : config) (tr : list event) (w : wpc) : Prop :=
  match w with
  | WExec r | WExecd r _ | WAppend r => timedOut r = false ∧ probed cfg tr r
  | WSend r => probed cfg tr r
  | _ => True
  end.

Record provenance (cfg : config) (s : state) : Prop := Provenance {
  prov_workers : Forall (wpc_probed cfg (trace s)) (workers s);
  prov_exec : ∀ n v now err,
    EvExec n v now err ∈ trace s →
    ∃ r, domain r = n ∧ hasOIDC r = v ∧ timedOut r = false ∧
         probed cfg (trace s) r;
  prov_sends : ∀ r, r ∈ sends (trace s) → probed cfg (trace s) r
}.

(** What a worker whose upsert failed with [e] still has to do with the
    result [r]: log the failure, then send the result. *)
Definition owes (i : nat) (r : domainResult) (e : error) (s : state)
    : Prop :=
  workers s !! i = Some (WExecd r (Some e)) ∨
  (EvLog (insert_failed_line (domain r) e) ∈ trace s ∧
   (workers s !! i = Some (WAppend r) ∨
    workers s !! i = Some (WSend r) ∨
    r ∈ sends (trace s))).

(** A batch whose domains all have a row in the table [t]: no worker is
    ever beyond the query. *)
Definition all_known_pc (t : gmap string row) (w : wpc) : Prop :=
  match w with
  | WRecv | WDone | WKnown _ _ => True
  | WQuery d => is_Some (t !! d)
  | _ => False
  end.

Record all_known (t : gmap string row) (s : state) : Prop := AllKnown {
  ak_db : db s = t;
  ak_queue : Forall (λ d, is_Some (t !! d)) (domainChan s ++ unsent (main s));
  ak_workers : Forall (all_known_pc t) (workers s);
  ak_probes : probes (trace s) = []
}.

End Invariants.

(** ** Example runs *)

Module Examples.
Import Strings Probe Store OutFile Batch.

Definition o_plain : oracle :=
  Oracle None (Response 200 "application/json") None "2024-06-01 12:00:00"
    FileOk.

Definition o_locked : oracle :=
  Oracle (Some "database is locked") RequestError None "" FileOk.

Definition o_404 : oracle :=
  Oracle None (Response 404 "text/html") None "2024-06-01 12:00:00" FileOk.

Definition o_refused : oracle :=
  Oracle None (DoError false) None "2024-06-01 12:00:00" FileOk.

(** Oracles and schedules of the examples. *)
Definition o_timeout : oracle :=
  Oracle None (DoError true) None "2024-06-01 12:00:05" FileOk.

Definition o_json : oracle :=
  Oracle None (Response 200 "application/json; charset=utf-8") None
    "2024-06-01 12:00:01" FileOk.

Definition o_io : oracle :=
  Oracle None (Response 200 "application/json") (Some "disk I/O error")
    "2024-06-01 12:00:01" FileOk.

Definition s_known : state :=
  State MRange CWait [WQuery "known.example"] [] true [] false 1
    {["known.example" := Row true "2024-01-01 00:00:00"]} None [].

Definition s_testing : state :=
  State MRange CWait [WTest "down.example"] [] true [] false 1 ∅ None [].

Definition cfg_slow : config := Config ["slow.example"] "found.txt" 1 1.

(** main fills and closes the queue, starts the worker and the closer;
    the worker takes the domain, finds no row, probes, sends, leaves;
    the closer closes the result channel; main prints and returns. *)
Definition sched_slow : list action :=
  [AMain; AMain; AMain; AMain] ++
  [AWorker 0 o_timeout; AWorker 0 o_timeout; AWorker 0 o_timeout;
   AWorker 0 o_timeout; AWorker 0 o_timeout] ++
  [ACloser; ACloser; AMain; AMain; AMain].

Definition cfg_dup2 : config :=
  Config ["dup.example"; "dup.example"] "" 2 30.

(** Two workers take the two occurrences and both find no row; worker 0
    gets a 404 and writes the row; the probe of worker 1 times out. *)
Definition sched_race : list action :=
  [AMain; AMain; AMain; AMain; AMain; AMain] ++
  [AWorker 0 o_404; AWorker 1 o_404; AWorker 0 o_404; AWorker 1 o_404] ++
  [AWorker 0 o_404; AWorker 0 o_404; AWorker 0 o_404; AWorker 0 o_404] ++
  [AWorker 1 o_timeout; AWorker 1 o_timeout] ++
  [AWorker 0 o_404; AWorker 1 o_404; ACloser; ACloser] ++
  [AMain; AMain; AMain; AMain; AMain].

Definition cfg_dup1 : config :=
  Config ["dup.example"; "dup.example"] "" 1 30.

(** The one worker handles the first occurrence to the end, then takes
    the second and finds the row. *)
Definition sched_seq : list action :=
  [AMain; AMain; AMain; AMain; AMain] ++
  [AWorker 0 o_404; AWorker 0 o_404; AWorker 0 o_404; AWorker 0 o_404;
   AWorker 0 o_404; AWorker 0 o_404] ++
  [AWorker 0 o_404; AWorker 0 o_404; AWorker 0 o_404; AWorker 0 o_404] ++
  [ACloser; ACloser; AMain; AMain; AMain].

Definition cfg_known : config :=
  Config ["auth.good.example"; "auth.bad.example"] "found.txt" 2 30.

Definition table_known : gmap string row :=
  {[ "auth.good.example" := Row true "2024-01-01 00:00:00";
     "auth.bad.example" := Row false "2024-01-01 00:00:02" ]}.

Definition sched_known : list action :=
  [AMain; AMain; AMain; AMain; AMain; AMain] ++
  [AWorker 0 o_json; AWorker 1 o_json; AWorker 1 o_json; AWorker 0 o_json] ++
  [AWorker 1 o_json; AWorker 0 o_json; AWorker 1 o_json; AWorker 0 o_json] ++
  [ACloser; ACloser; AMain].

Definition cfg_good : config := Config ["auth.good.example"] "found.txt" 1 30.

Definition sched_good : list action :=
  [AMain; AMain; AMain; AMain] ++
  [AWorker 0 o_json; AWorker 0 o_json; AWorker 0 o_json; AWorker 0 o_json;
   AWorker 0 o_json; AWorker 0 o_json; AWorker 0 o_json; AWorker 0 o_json] ++
  [ACloser; ACloser; AMain; AMain; AMain].

End Examples.

(** ** Accounting for the domains of a batch *)

Module Accounting.
Import Strings Probe Store OutFile Batch Observe.

(** How often [d] occurs in a list of names. *)
Definition count (d : string) (l : list string) : nat :=
  length (filter (λ x, x = d) l).

(** The "already known" lines of a trace: the domain and the value
    printed. *)
Definition knowns (tr : list event) : list (string * bool) :=
  tr ≫= λ e, match e with EvKnown d v => [(d, v)] | _ => [] end.

(** A worker that has taken [d] from the queue and has neither probed it
    nor reported it as known yet. *)
Definition holding (d : string) (w : wpc) : nat :=
  match w with
  | WQuery d' | WKnown d' _ | WTest d' => if decide (d' = d) then 1 else 0
  | _ => 0
  end.

(** Every occurrence of [d] in the list is in exactly one place: not yet
    taken, held by a worker, probed, or reported as known. *)
Definition accounted (cfg : config) (d : string) (s : state) : Prop :=
  count d (domainChan s ++ unsent (main s)) +
  total (holding d) (workers s) +
  length (outcomes d (trace s)) +
  count d (knowns (trace s)).*1 =
  count d (domains cfg).

(** A worker that has probed and not yet sent the result. *)
Definition carrying (w : wpc) : nat :=
  match w with
  | WExec _ | WExecd _ _ | WAppend _ | WSend _ => 1
  | _ => 0
  end.

Definition carries (r : domainResult) (w : wpc) : Prop :=
  match w with
  | WExec r' | WExecd r' _ | WAppend r' | WSend r' => r' = r
  | _ => False
  end.

(** The result of a probe is with a worker until it is sent. *)
Definition delivered (cfg : config) (d : string) (x : exchange) (s : state)
    : Prop :=
  (d, x) ∈ probes (trace s) →
  result_of cfg d x ∈ sends (trace s) ∨
  ∃ j w, workers s !! j = Some w ∧ carries (result_of cfg d x) w.

(** No worker has left its loop while the queue still held a domain. *)
Definition drained (s : state) : Prop :=
  ∀ j, workers s !! j = Some WDone → domainChan s = [].

(** A row that was there at the start, and a worker that cannot change
    it. *)
Definition spares (d : string) (w : wpc) : Prop :=
  match w with
  | WTest d' => d' ≠ d
  | WExec r => domain r ≠ d
  | _ => True
  end.

Record kept (d : string) (r : row) (s : state) : Prop := Kept {
  kept_row : db s !! d = Some r;
  kept_workers : Forall (spares d) (workers s);
  kept_probes : outcomes d (trace s) = []
}.

(** A domain is reported as known only if it has a row: one from the
    start, or one that an upsert of the run wrote. *)
Definition known_origin (table : gmap string row) (d : string) (s : state)
    : Prop :=
  (d ∈ (knowns (trace s)).*1 ∨ ∃ j v, workers s !! j = Some (WKnown d v)) →
  is_Some (table !! d) ∨ ∃ v now, EvExec d v now None ∈ trace s.

(** Nothing in the trace makes a worker append to the output file. *)
Definition quiet (cfg : config) (tr : list event) : Prop :=
  outFile cfg = "" ∨ Forall (λ p, classify p.2 ≠ Found) (probes tr).

Definition no_append (cfg : config) (w : wpc) : Prop :=
  match w with
  | WAppend _ => False
  | WExec r | WExecd r _ =>
      hasOIDC r && negb (String.eqb (outFile cfg) "") = false
  | _ => True
  end.

Definition file_kept (cfg : config) (f : option string) (s : state)
    : Prop :=
  quiet cfg (trace s) → out s = f ∧ Forall (no_append cfg) (workers s).

Definition file_grows (f : option string) (s : state) : Prop :=
  (is_Some f → is_Some (out s)) ∧
  ∃ rest, default "" (out s) = default "" f +:+ rest.

(** A run in which no worker ever gets a domain. *)
Definition resting (w : wpc) : Prop := w = WRecv ∨ w = WDone.

Record idle (table : gmap string row) (f : option string) (s : state)
    : Prop := Idle {
  idle_trace : trace s = [];
  idle_db : db s = table;
  idle_out : out s = f;
  idle_workers : Forall resting (workers s);
  idle_queue : workers s ≠ [] → domainChan s = []
}.

(** A worker that is about to report [d] as known prints the value [v]. *)
Definition shows (d : string) (v : bool) (w : wpc) : Prop :=
  match w with
  | WKnown d' v' => d' = d → v' = v
  | _ => True
  end.

Record answered (d : string) (v : bool) (s : state) : Prop := Answered {
  ans_workers : Forall (shows d v) (workers s);
  ans_lines : ∀ v', (d, v') ∈ knowns (trace s) → v' = v
}.

(** A worker that has taken a domain from the queue and has neither
    probed it nor reported it as known yet. *)
Definition waiting (w : wpc) : nat :=
  match w with
  | WQuery _ | WKnown _ _ | WTest _ => 1
  | _ => 0
  end.

(** Every entry of the list is in exactly one place. *)
Definition tallied (cfg : config) (s : state) : Prop :=
  length (domainChan s ++ unsent (main s)) +
  total waiting (workers s) +
  length (probes (trace s)) +
  length (knowns (trace s)) =
  length (domains cfg).

End Accounting.

(** ** The other actions: [listDomains], [addDomain], [removeDomain],
    [removeAny] and the choice of the action in [main] *)

Module Commands.
Import Strings Store.

(** What an action leaves: the lines on standard output, the table, and
    the message of [log.Fatal] if the action ended in one. *)
Record outcome := Outcome {
  printed : list string;
  after : gmap string row;
  fatal : option string
}.

(** The word [valid] or [invalid] that the messages use. *)
Definition list_word (valid : bool) : string :=
  if valid then "valid" else "invalid".

(** [addDomain(db, domain, valid)]; [now] is CURRENT_TIMESTAMP. *)
Definition addDomain (db : gmap string row) (fault : option string)
    (now : string) (domain : string) (valid : bool) : outcome :=
  if String.eqb domain "" then Outcome [] db (Some "Domain is empty")
  else
    let '(t, err) := Exec_upsert db fault now domain valid in
    match err with
    | Some e => Outcome [] t (Some ("Failed to add domain: " +:+ Error e))
    | None =>
        Outcome ["Added " +:+ domain +:+ " to " +:+ list_word valid +:+
                 " list" +:+ nl] t None
    end.

(** [db.Exec(`DELETE FROM domains WHERE name = ? AND has_oidc = ?`, name,
    valid)]: the table, the error and [RowsAffected()]. *)
Definition Exec_delete_where (db : gmap string row) (fault : option string)
    (name : string) (valid : bool) : gmap string row * option error * Z :=
  match fault with
  | Some msg => (db, Some (ErrOther msg), 0%Z)
  | None =>
      match db !! name with
      | Some r =>
          if Bool.eqb (has_oidc r) valid then (delete name db, None, 1%Z)
          else (db, None, 0%Z)
      | None => (db, None, 0%Z)
      end
  end.

(** [db.Exec(`DELETE FROM domains WHERE name = ?`, name)]. *)
Definition Exec_delete (db : gmap string row) (fault : option string)
    (name : string) : gmap string row * option error * Z :=
  match fault with
  | Some msg => (db, Some (ErrOther msg), 0%Z)
  | None =>
      match db !! name with
      | Some _ => (delete name db, None, 1%Z)
      | None => (db, None, 0%Z)
      end
  end.

(** [removeDomain(db, domain, valid)]. *)
Definition removeDomain (db : gmap string row) (fault : option string)
    (domain : string) (valid : bool) : outcome :=
  let '(t, err, n) := Exec_delete_where db fault domain valid in
  match err with
  | Some e => Outcome [] t (Some ("Failed to remove domain: " +:+ Error e))
  | None =>
      if (n >? 0)%Z then
        Outcome ["Removed " +:+ domain +:+ " from " +:+ list_word valid +:+
                 " list" +:+ nl] t None
      else
        Outcome ["Domain " +:+ domain +:+ " not found in " +:+
                 list_word valid +:+ " list" +:+ nl] t None
  end.

(** [removeAny(db, domain)]. *)
Definition removeAny (db : gmap string row) (fault : option string)
    (domain : string) : outcome :=
  let '(t, err, n) := Exec_delete db fault domain in
  match err with
  | Some e => Outcome [] t (Some ("Failed to remove domain: " +:+ Error e))
  | None =>
      if (n >? 0)%Z then
        Outcome ["Removed " +:+ domain +:+ " from all lists" +:+ nl] t None
      else Outcome ["Domain " +:+ domain +:+ " not found" +:+ nl] t None
  end.

(** The rows of [SELECT name FROM domains WHERE has_oidc = v ORDER BY
    name]: the names in the order of their bytes. *)
Definition Query_names (db : gmap string row) (v : bool) : list string :=
  merge_sort String.le
    (map_to_list (filter (λ kv, has_oidc kv.2 = v) db)).*1.

(** What the environment decides in [listDomains]: whether a query fails,
    and after how many rows [rows.Next()] gives up ([None]: it delivers
    them all); the loops never look at [rows.Err()]. [rows.Scan] of a
    name of the table into a [string] does not fail. *)
Record list_oracle := ListOracle {
  valid_fault : option string;
  valid_rows : option nat;
  invalid_fault : option string;
  invalid_rows : option nat
}.

Definition delivered_rows (cut : option nat) (rows : list string)
    : list string :=
  match cut with
  | Some n => take n rows
  | None => rows
  end.

(** [fmt.Println(" -", name)]. *)
Definition name_line (name : string) : string := " -" +:+ " " +:+ name +:+ nl.

(** [listDomains(db)]. *)
Definition listDomains (db : gmap string row) (o : list_oracle) : outcome :=
  let head1 := ["Valid domains:" +:+ nl] in
  match valid_fault o with
  | Some msg => Outcome head1 db (Some ("Query failed: " +:+ msg))
  | None =>
      let part1 :=
        head1 ++
        (name_line <$> delivered_rows (valid_rows o) (Query_names db true)) ++
        [nl +:+ "Invalid domains:" +:+ nl] in
      match invalid_fault o with
      | Some msg => Outcome part1 db (Some ("Query failed: " +:+ msg))
      | None =>
          Outcome
            (part1 ++
             (name_line <$>
                delivered_rows (invalid_rows o) (Query_names db false)))
            db None
      end
  end.

(** The flags of [main] after [flag.Parse()]. *)
Record flags := Flags {
  dbPath : string;
  listFlag : bool;
  fileFlag : string;
  addValid : string;
  addInvalid : string;
  rmValid : string;
  rmInvalid : string;
  rmAny : string;
  prefixFlag : string;
  outFlag : string;
  parallelFlag : Z;
  timeoutFlag : Z
}.

Definition given (s : string) : bool := negb (String.eqb s "").

(** The counter [actions] of [main]. *)
Definition actions (fl : flags) : Z :=
  ((if listFlag fl then 1 else 0) +
   (if given (fileFlag fl) then 1 else 0) +
   (if given (addValid fl) then 1 else 0) +
   (if given (addInvalid fl) then 1 else 0) +
   (if given (rmValid fl) then 1 else 0) +
   (if given (rmInvalid fl) then 1 else 0) +
   (if given (rmAny fl) then 1 else 0))%Z.

(** Which of the seven actions the flags ask for, in the order of the
    tests of [main]. *)
Definition chosen (fl : flags) : list bool :=
  [listFlag fl; given (fileFlag fl); given (addValid fl);
   given (addInvalid fl); given (rmValid fl); given (rmInvalid fl);
   given (rmAny fl)].

(** The call that the [switch] of [main] makes. *)
Inductive call :=
| CallList
| CallFile (path prefix outFile : string) (parallel timeoutSecs : Z)
| CallAdd (domain : string) (valid : bool)
| CallRemove (domain : string) (valid : bool)
| CallRemoveAny (domain : string).

Section Main.
(** [strings.TrimSpace], a function of Go's library. *)
Variable TrimSpace : string → string.

(** The [switch] of [main]: the first case that holds, if any. *)
Definition switch (fl : flags) : option call :=
  if listFlag fl then Some CallList
  else if given (fileFlag fl) then
    Some (CallFile (fileFlag fl) (prefixFlag fl) (outFlag fl)
            (parallelFlag fl) (timeoutFlag fl))
  else if given (addValid fl) then
    Some (CallAdd (TrimSpace (addValid fl)) true)
  else if given (addInvalid fl) then
    Some (CallAdd (TrimSpace (addInvalid fl)) false)
  else if given (rmValid fl) then
    Some (CallRemove (TrimSpace (rmValid fl)) true)
  else if given (rmInvalid fl) then
    Some (CallRemove (TrimSpace (rmInvalid fl)) false)
  else if given (rmAny fl) then Some (CallRemoveAny (TrimSpace (rmAny fl)))
  else None.

(** The calls of the cases of the [switch], in their order. *)
Definition cases (fl : flags) : list call :=
  [CallList;
   CallFile (fileFlag fl) (prefixFlag fl) (outFlag fl) (parallelFlag fl)
     (timeoutFlag fl);
   CallAdd (TrimSpace (addValid fl)) true;
   CallAdd (TrimSpace (addInvalid fl)) false;
   CallRemove (TrimSpace (rmValid fl)) true;
   CallRemove (TrimSpace (rmInvalid fl)) false;
   CallRemoveAny (TrimSpace (rmAny fl))].

(** [main] up to the [switch]. *)
Inductive prepared :=
| Usage                 (* "Error: specify exactly one action"; os.Exit(1) *)
| Fatal (msg : string)  (* log.Fatalf *)
| Ready (table : gmap string row) (c : option call).

(** [file] is the table of the database file, [None] if the file has no
    table [domains] yet; [CREATE TABLE IF NOT EXISTS] makes an empty one. *)
Definition main (fl : flags) (open_fault create_fault : option string)
    (file : option (gmap string row)) : prepared :=
  if negb (actions fl =? 1)%Z then Usage
  else
    match open_fault with
    | Some msg => Fatal ("Failed to open database: " +:+ msg)
    | None =>
        match create_fault with
        | Some msg => Fatal ("Failed to create table: " +:+ msg)
        | None => Ready (default ∅ file) (switch fl)
        end
    end.

(** The calls of the [switch] other than [processFile], which is the
    batch run. *)
Definition perform (c : call) (db : gmap string row) (fault : option string)
    (now : string) (o : list_oracle) : option outcome :=
  match c with
  | CallList => Some (listDomains db o)
  | CallFile _ _ _ _ _ => None
  | CallAdd d v => Some (addDomain db fault now d v)
  | CallRemove d v => Some (removeDomain db fault d v)
  | CallRemoveAny d => Some (removeAny db fault d)
  end.
End Main.

End Commands.

(** ** More runs *)

Module Scenarios.
Import Strings Probe Store OutFile Batch Examples.

(** A batch that is run with [-parallel 0]. *)
Definition cfg_none : config := Config ["a.example"] "found.txt" 0 30.

(** main fills and closes the queue and starts the closer, which closes
    the result channel at once; main returns. *)
Definition sched_none : list action :=
  [AMain; AMain; AMain; ACloser; ACloser; AMain].

(** A list with a domain that has a row and one that has none. *)
Definition cfg_mixed : config :=
  Config ["auth.good.example"; "new.example"; "auth.good.example"]
    "" 1 30.

Definition table_good : gmap string row :=
  {[ "auth.good.example" := Row true "2024-01-01 00:00:00" ]}.

Definition sched_mixed : list action :=
  [AMain; AMain; AMain; AMain; AMain; AMain] ++
  [AWorker 0 o_404; AWorker 0 o_404; AWorker 0 o_404] ++
  [AWorker 0 o_404; AWorker 0 o_404; AWorker 0 o_404; AWorker 0 o_404;
   AWorker 0 o_404; AWorker 0 o_404] ++
  [AWorker 0 o_404; AWorker 0 o_404; AWorker 0 o_404; AWorker 0 o_404] ++
  [ACloser; ACloser; AMain; AMain; AMain].

(** A list of one domain that has a row, and a run in which the lookup
    fails: the worker takes the domain, its query fails with "database is
    locked", so it probes (the request cannot be made), upserts and sends;
    main prints the report. *)
Definition cfg_stored : config := Config ["known.example"] "" 1 30.

Definition table_stored : gmap string row :=
  {[ "known.example" := Row true "2024-01-01 00:00:00" ]}.

Definition sched_locked : list action :=
  [AMain; AMain; AMain; AMain] ++
  [AWorker 0 o_locked; AWorker 0 o_locked; AWorker 0 o_locked;
   AWorker 0 o_locked; AWorker 0 o_locked; AWorker 0 o_locked;
   AWorker 0 o_locked] ++
  [ACloser; ACloser; AMain; AMain; AMain].

(** The batch of [cfg_known] over [table_known], where every domain has a
    row: the lookup of worker 0 for the first domain fails, so it probes
    and upserts it; its lookup for the second domain runs; worker 1
    finds the queue empty. *)
Definition sched_known_locked : list action :=
  [AMain; AMain; AMain; AMain; AMain; AMain] ++
  [AWorker 0 o_locked; AWorker 0 o_locked; AWorker 0 o_404;
   AWorker 0 o_404; AWorker 0 o_404; AWorker 0 o_404] ++
  [AWorker 0 o_json; AWorker 0 o_json; AWorker 0 o_json; AWorker 0 o_json] ++
  [AWorker 1 o_json; ACloser; ACloser; AMain; AMain; AMain].

(** One worker and two domains without rows. The upsert of the first
    fails; the worker logs, sends, and goes on to the second. *)
Definition cfg_two : config :=
  Config ["first.example"; "second.example"] "" 1 30.

Definition r_first : domainResult :=
  Result "first.example" true
    "https://first.example/.well-known/openid-configuration" false.

(** Up to the upsert of the first domain. *)
Definition sched_two_probe : list action :=
  [AMain; AMain; AMain; AMain; AMain] ++
  [AWorker 0 o_io; AWorker 0 o_io; AWorker 0 o_io].

(** After the failed upsert: the log line and the send of the first
    result, then the second domain to its end, then the end of the run. *)
Definition sched_two_rest : list action :=
  [AWorker 0 o_io; AWorker 0 o_io] ++
  [AWorker 0 o_json; AWorker 0 o_json; AWorker 0 o_json; AWorker 0 o_json;
   AWorker 0 o_json; AWorker 0 o_json; AWorker 0 o_json] ++
  [ACloser; ACloser; AMain; AMain; AMain; AMain; AMain].

End Scenarios.

(** * Properties *)

(** ** [strings.Contains] finds exactly the substrings *)

Module StringFacts.
Import Strings.

Lemma append_cons c (p s : string) : String c p +:+ s = String c (p +:+ s).
Proof. reflexivity. Qed.
Lemma append_nil (s : string) : "" +:+ s = s.
Proof. reflexivity. Qed.

Lemma prefix_app (p s : string) :
  String.prefix p s = true ↔ ∃ post, s = p +:+ post.
Proof.
  revert s. induction p as [|c p IH]; intros s; simpl.
  - split; [intros _; exists s; reflexivity | by destruct s].
  - destruct s as [|c' s]; simpl.
    + split; [done | intros [post ?]; discriminate].
    + setoid_rewrite append_cons.
      destruct (Ascii.ascii_dec c c') as [->|Hne].
      * rewrite IH. split; intros [post H]; exists post; congruence.
      * split; [done | intros [post ?]; congruence].
Qed.

Lemma Contains_spec (s substr : string) :
  Contains s substr = true ↔ ∃ pre post, s = pre +:+ substr +:+ post.
Proof.
  induction s as [|c s IH].
  - change (Contains "" substr) with (String.prefix substr "" || false).
    rewrite orb_false_r, prefix_app. split.
    + intros [post ->]. by exists "", post.
    + intros [pre [post H]]. destruct pre; [by exists post|discriminate].
  - change (Contains (String c s) substr)
      with (String.prefix substr (String c s) || Contains s substr).
    rewrite orb_true_iff, prefix_app, IH. split.
    + intros [[post ->]|[pre [post ->]]].
      * by exists "", post.
      * by exists (String c pre), post.
    + intros [pre [post H]]. destruct pre as [|c' pre].
      * left. by exists post.
      * right. exists pre, post. rewrite append_cons in H. congruence.
Qed.

End StringFacts.

(** ** The probe *)

Module ProbeFacts.
Import Strings Probe StringFacts.

(** C2. For an exchange that returned a response, the probe sets hasOIDC
    (the outcome is Found) exactly when the status is 200 and the
    Content-Type header contains "application/json". The Found result
    carries the URL https://{domain}/.well-known/openid-configuration; in
    every other case the outcome is NotFound and the URL is empty. A
    returned response never counts as timed out. *)
Theorem found_iff_200_and_json (domain : string) (timeoutSecs : Z)
    (StatusCode : Z) (ContentType : string) :
  let x := Response StatusCode ContentType in
  let json :=
    ∃ pre post, ContentType = pre +:+ "application/json" +:+ post in
  let '(oidcURL, hasOIDC, timedOut) :=
    testOIDCWithTimeout domain timeoutSecs x in
  (hasOIDC = true ↔ StatusCode = 200%Z ∧ json) ∧
  timedOut = false ∧
  oidcURL =
    (if hasOIDC
     then "https://" +:+ domain +:+ "/.well-known/openid-configuration"
     else "") ∧
  classify x = (if hasOIDC then Found else NotFound).
Proof.
  intros x json. subst x json.
  unfold classify, testOIDCWithTimeout, well_known_url.
  pose proof (Contains_spec ContentType "application/json") as Hc.
  destruct (Z.eqb_spec StatusCode 200) as [->|Hne];
    destruct (Contains ContentType "application/json");
    cbn [andb]; intuition congruence.
Qed.

End ProbeFacts.

(** ** Runs of the batch *)

Module RunFacts.
Import Strings Probe Store OutFile Batch Observe Invariants Examples.

(** Case analysis on a step that was taken. *)
Ltac step_inv H :=
  unfold step, processFile_step, closer_step, worker_step, chan_send,
    QueryRow_Scan, Exec_upsert in H;
  repeat case_match; simplify_eq.

(** *** Counting program counters *)

Lemma total_app f ws1 ws2 : total f (ws1 ++ ws2) = total f ws1 + total f ws2.
Proof. apply sum_list_with_app. Qed.

Lemma total_insert f (ws : list wpc) i w w' :
  ws !! i = Some w →
  total f (<[i := w']> ws) + f w = total f ws + f w'.
Proof.
  revert i. induction ws as [|v ws IH]; intros [|i] Hi; simplify_eq/=.
  - unfold total. simpl. lia.
  - specialize (IH _ Hi). unfold total in *. simpl. lia.
Qed.

Lemma total_lookup_le f (ws : list wpc) i w :
  ws !! i = Some w → f w ≤ total f ws.
Proof.
  revert i. induction ws as [|v ws IH]; intros [|i] Hi; simplify_eq/=.
  - unfold total. simpl. lia.
  - specialize (IH _ Hi). unfold total in *. simpl. lia.
Qed.

Lemma total_pending_pos (ws : list wpc) :
  0 < total pending ws → ∃ i w, ws !! i = Some w ∧ w ≠ WDone.
Proof.
  induction ws as [|v ws IH]; unfold total; simpl; [lia|].
  intros H. destruct (decide (pending v = 0)) as [Hv|Hv].
  - destruct IH as (i & w & ? & ?); [unfold total; lia|].
    by exists (S i), w.
  - exists 0, v. split; [done|]. by intros ->.
Qed.

(** *** What the trace records *)

Lemma sends_app tr1 tr2 : sends (tr1 ++ tr2) = sends tr1 ++ sends tr2.
Proof. apply bind_app. Qed.
Lemma reports_app tr1 tr2 : reports (tr1 ++ tr2) = reports tr1 ++ reports tr2.
Proof. apply bind_app. Qed.
Lemma probes_app tr1 tr2 : probes (tr1 ++ tr2) = probes tr1 ++ probes tr2.
Proof. apply bind_app. Qed.
Lemma sends_logs (l : list string) : sends (EvLog <$> l) = [].
Proof. by induction l. Qed.
Lemma reports_logs (l : list string) : reports (EvLog <$> l) = [].
Proof. by induction l. Qed.
Lemma probes_logs (l : list string) : probes (EvLog <$> l) = [].
Proof. by induction l. Qed.

Lemma replay_app tr1 tr2 t : replay (tr1 ++ tr2) t = replay tr2 (replay tr1 t).
Proof. apply fold_left_app. Qed.

Lemma replay_logs (l : list string) t : replay (EvLog <$> l) t = t.
Proof. by induction l. Qed.

Lemma replay_lookup tr t name :
  replay tr t !! name =
  match last_persisted name tr with
  | Some r => Some r
  | None => t !! name
  end.
Proof.
  unfold replay, last_persisted.
  induction tr as [|e tr IH] using rev_ind; [done|].
  rewrite !fold_left_app. simpl.
  destruct e as [| | | |n v now [e|]|]; simpl; try done.
  destruct (decide (n = name)) as [->|Hne].
  - by rewrite lookup_insert_eq.
  - by rewrite lookup_insert_ne.
Qed.

(** Without a successful upsert of [name] nothing was persisted for it. *)
Lemma last_persisted_none name tr :
  (∀ v now, EvExec name v now None ∉ tr) → last_persisted name tr = None.
Proof.
  unfold last_persisted.
  induction tr as [|e tr IH] using rev_ind; [done|]. intros H.
  rewrite fold_left_app. simpl.
  destruct e as [| | | |n v now [e|]|]; simpl;
    try (apply IH; intros v' now' Hin; apply (H v' now');
         apply elem_of_app; by left).
  destruct (decide (n = name)) as [->|Hne].
  - destruct (H v now). apply elem_of_app. right. by apply list_elem_of_singleton.
  - apply IH; intros v' now' Hin; apply (H v' now'); apply elem_of_app; by left.
Qed.

Lemma last_persisted_some name tr r :
  last_persisted name tr = Some r →
  EvExec name (has_oidc r) (tested_at r) None ∈ tr.
Proof.
  unfold last_persisted.
  induction tr as [|e tr IH] using rev_ind; [done|].
  rewrite fold_left_app. simpl. intros H. apply elem_of_app.
  destruct e as [| | | |n v now [e|]|]; simpl in H; try (left; by apply IH).
  destruct (decide (n = name)) as [->|Hne]; [|left; by apply IH].
  simplify_eq. right. by apply list_elem_of_singleton.
Qed.

Section Run.
Variable cfg : config.

Lemma run_app sched1 sched2 s :
  run cfg (sched1 ++ sched2) s =
  match run cfg sched1 s with
  | Ok s' => run cfg sched2 s'
  | r => r
  end.
Proof.
  revert s. induction sched1 as [|a l IH]; intros s; simpl; [done|].
  destruct (step cfg a s); auto.
Qed.

(** A property kept by the steps whose action satisfies [Q] holds
    after every run of such actions. *)
Lemma run_invariant (Q : action → Prop) (P : state → Prop) :
  (∀ a s s', Q a → P s → step cfg a s = Ok s' → P s') →
  ∀ sched s s', Forall Q sched → P s → run cfg sched s = Ok s' → P s'.
Proof.
  intros Hstep sched. induction sched as [|a l IH]; intros s s' HQ HP Hrun;
    simpl in Hrun.
  - by simplify_eq.
  - inversion HQ; subst.
    destruct (step cfg a s) as [s1| |] eqn:Hs; try done. eauto.
Qed.

Lemma run_invariant_all (P : state → Prop) :
  (∀ a s s', P s → step cfg a s = Ok s' → P s') →
  ∀ sched s s', P s → run cfg sched s = Ok s' → P s'.
Proof.
  intros Hstep sched s s' HP Hrun.
  assert (Hstep' : ∀ a s s', True → P s → step cfg a s = Ok s' → P s')
    by eauto.
  apply (run_invariant (λ _, True) P Hstep' sched s s'); auto.
  by apply Forall_true.
Qed.

(** *** The control invariant *)

Lemma wf_start table f : wf cfg (start cfg table f).
Proof.
  split; simpl; try done; lia.
Qed.

Lemma wf_step a s s' : wf cfg s → step cfg a s = Ok s' → wf cfg s'.
Proof.
  intros [Hm Hwg Hcl Hcd Hdn Hcnt Hfifo] H.
  destruct (main s) eqn:Hmain; step_inv H.
  all: destruct_and?.
  all: try match goal with
       | H : workers ?s !! ?i = Some ?w |- _ =>
           pose proof (λ w', total_insert pending _ _ _ w' H);
           pose proof (λ w', total_insert busy _ _ _ w' H);
           pose proof (total_lookup_le pending _ _ _ H);
           assert (workers s ≠ []) by (by intros E; rewrite E in H)
       end.
  all: split; simpl in *; rewrite ?Hmain; simpl.
  all: repeat (rewrite ?length_insert, ?length_app, ?sends_app,
         ?reports_app, ?total_app, ?sends_logs, ?reports_logs,
         ?app_nil_r, <- ?app_assoc; simpl).
  all: try match goal with
       | |- context [total ?f (<[?i := ?w']> _)] =>
           match goal with
           | H : ∀ w, total f (<[i := w]> _) + _ = _ |- _ =>
               specialize (H w'); simpl in H
           end
       end.
  all: repeat match goal with
       | H : workers _ = [] |- _ => rewrite H in *; simpl in *
       | H : domainChan _ = [] |- _ => rewrite H in *; simpl in *
       end.
  all: rewrite ?length_app in *; simpl in *.
  all: try (intuition (try congruence; try lia); fail).
  all: try (rewrite Hfifo, <- ?app_assoc; simpl; done).
  all: repeat split; try done; try lia.
  all: try (intros E; apply (f_equal length) in E;
            rewrite ?length_insert, ?length_app in E; simpl in E;
            destruct (workers s); simplify_eq/=; lia).
  by rewrite app_nil_r in *.
Qed.

Lemma wf_run table f sched s :
  run cfg sched (start cfg table f) = Ok s → wf cfg s.
Proof.
  apply (run_invariant_all (wf cfg)); [apply wf_step | apply wf_start].
Qed.

(** *** No step panics *)

Lemma step_no_crash a s msg : wf cfg s → step cfg a s ≠ Crash msg.
Proof.
  intros [Hm Hwg Hcl Hcd Hdn Hcnt Hfifo] H.
  destruct (main s) eqn:Hmain; step_inv H.
  all: destruct_and?; try congruence.
  all: try match goal with
       | H : workers ?s !! ?i = Some ?w |- _ =>
           pose proof (total_lookup_le pending _ _ _ H); simpl in *
       end.
  all: try lia.
  all: try (destruct Hcd as [Hcd _]; specialize (Hcd eq_refl);
            try congruence; specialize (Hcl (or_intror Hcd)); lia).
Qed.

Lemma run_no_crash table f sched msg :
  run cfg sched (start cfg table f) ≠ Crash msg.
Proof.
  assert (∀ l s, wf cfg s → run cfg l s ≠ Crash msg) as H.
  { induction l as [|a l IH]; intros s Hs; simpl; [done|].
    destruct (step cfg a s) as [s1| |m] eqn:Hstep; [|done|].
    - apply IH. by apply wf_step with a s.
    - intros ?; simplify_eq. by apply (step_no_crash a s msg). }
  apply H, wf_start.
Qed.

(** *** Some goroutine can always move until [processFile] returns *)

Lemma worker_enabled s i w o :
  wf cfg s → closer s ≠ CNone → workers s !! i = Some w → w ≠ WDone →
  resultChan_closed s = false →
  ∃ s', step cfg (AWorker i o) s = Ok s'.
Proof.
  intros [Hm Hwg Hcl Hcd Hdn Hcnt Hfifo] Hc Hi Hw Hrc.
  pose proof (total_lookup_le pending _ _ _ Hi) as Hp.
  pose proof (total_lookup_le busy _ _ _ Hi) as Hb.
  assert (length (resultChan s) ≤ length (sends (trace s))) as Hlen.
  { rewrite Hfifo, !length_app. lia. }
  assert (domainChan_closed s = true) as Hdc.
  { destruct (main s); destruct_and?; done. }
  clear Hm. unfold step, worker_step, chan_send. rewrite Hi, Hrc.
  destruct w; simpl in *; try done; repeat case_match; eauto;
    try congruence; try lia.
  match goal with H : (_ <? _) = false |- _ => apply Nat.ltb_ge in H;
    unfold capacity in H end. lia.
Qed.

Lemma progress s :
  wf cfg s → main s ≠ MDone → ∃ a s', step cfg a s = Ok s'.
Proof.
  intros Hwf Hmain. pose proof Hwf as [Hm Hwg Hcl Hcd Hdn Hcnt Hfifo].
  destruct (main s) as [[|d rest]|i| |r|] eqn:Em; try done.
  - exists AMain. unfold step, processFile_step. rewrite Em.
    destruct Hm as (_ & _ & -> & _). eauto.
  - exists AMain. unfold step, processFile_step, chan_send. rewrite Em.
    destruct Hm as (_ & _ & -> & Hdom & _).
    assert ((length (domainChan s) <? capacity cfg) = true) as ->; eauto.
    apply Nat.ltb_lt. unfold capacity. rewrite <- Hdom, length_app.
    simpl. lia.
  - exists AMain. unfold step, processFile_step. rewrite Em.
    destruct (i <? parallel cfg)%Z; eauto.
  - destruct (resultChan s) as [|r q] eqn:Er.
    + destruct (resultChan_closed s) eqn:Ec.
      * exists AMain. unfold step, processFile_step. rewrite Em, Er, Ec. eauto.
      * destruct (closer s) eqn:Ecl.
        -- by destruct Hm.
        -- destruct (decide (wg s = 0%Z)) as [Hz|Hnz].
           ++ exists ACloser. unfold step, closer_step.
              rewrite Ecl, Hz. eauto.
           ++ destruct (total_pending_pos (workers s)) as (j & w & ? & ?);
                [lia|].
              exists (AWorker j (Oracle None RequestError None "" FileOk)).
              apply worker_enabled with w; auto; congruence.
        -- exists ACloser. unfold step, closer_step. rewrite Ecl, Ec. eauto.
        -- destruct Hcd as [_ Hcd]. specialize (Hcd eq_refl). congruence.
    + exists AMain. unfold step, processFile_step. rewrite Em, Er. eauto.
  - exists AMain. unfold step, processFile_step. rewrite Em. eauto.
Qed.

(** *** Every run is finite *)

Lemma step_decreases a s s' :
  step cfg a s = Ok s' → measure cfg s' < measure cfg s.
Proof.
  intros H. unfold measure. step_inv H.
  all: try match goal with
       | H : workers ?s !! ?i = Some ?w |- _ =>
           pose proof (λ w', total_insert weight_w _ _ _ w' H) as Hins
       end.
  all: simpl; rewrite ?total_app, ?length_app; simpl.
  all: try match goal with
       | |- context [total weight_w (<[?i := ?w']> _)] =>
           specialize (Hins w'); simpl in Hins
       end.
  all: repeat match goal with
       | H : main _ = _ |- _ => rewrite H
       | H : closer _ = _ |- _ => rewrite H
       | H : domainChan _ = _ |- _ => rewrite H
       | H : resultChan _ = _ |- _ => rewrite H
       | H : (_ <? _)%Z = true |- _ => apply Z.ltb_lt in H
       end; simpl.
  all: try lia.
Qed.

Lemma run_bounded sched s s' :
  run cfg sched s = Ok s' → length sched + measure cfg s' ≤ measure cfg s.
Proof.
  revert s. induction sched as [|a l IH]; intros s H; simpl in *.
  - simplify_eq. lia.
  - destruct (step cfg a s) as [s1| |] eqn:Hs; try done.
    apply step_decreases in Hs. apply IH in H. lia.
Qed.

Lemma run_completes s :
  wf cfg s → ∃ sched s', run cfg sched s = Ok s' ∧ main s' = MDone.
Proof.
  remember (measure cfg s) as n eqn:Hn. revert s Hn.
  induction (lt_wf n) as [n _ IH]; intros s -> Hwf.
  assert (main s = MDone ∨ main s ≠ MDone) as [Hd|Hd]
    by (destruct (main s); auto).
  - by exists [], s.
  - destruct (progress s Hwf Hd) as (a & s1 & Hs).
    destruct (IH (measure cfg s1) (step_decreases _ _ _ Hs) s1 eq_refl)
      as (l & s2 & Hrun & Hdone); [by apply wf_step with a s|].
    exists (a :: l), s2. simpl. by rewrite Hs.
Qed.

(** *** The table is the initial table with the upserts applied *)

Lemma db_replay table f sched s :
  run cfg sched (start cfg table f) = Ok s →
  db s = replay (trace s) table.
Proof.
  apply (run_invariant_all (λ s, db s = replay (trace s) table));
    [|done].
  clear. intros a s s' Hdb H. step_inv H; simpl.
  all: rewrite ?replay_app, ?replay_logs; simpl; rewrite ?replay_logs.
  all: by rewrite <- ?Hdb.
Qed.

(** *** Every result comes from a probe *)

Lemma probed_mono tr tr' r : probed cfg tr r → probed cfg (tr ++ tr') r.
Proof.
  intros (x & Hin & Hx). exists x. split; [|done].
  rewrite probes_app. apply elem_of_app. by left.
Qed.

Lemma wpc_probed_mono tr tr' w : wpc_probed cfg tr w → wpc_probed cfg (tr ++ tr') w.
Proof.
  destruct w; simpl; try done; try (intros [? ?]; split; [done|]);
    try intros ?; by apply probed_mono.
Qed.

Lemma probed_here tr d x es url has to :
  testOIDCWithTimeout d (timeoutSecs cfg) x = (url, has, to) →
  probed cfg (tr ++ EvProbe d x :: es) (Result d has url to).
Proof.
  intros H. exists x. split; [|done].
  rewrite probes_app. apply elem_of_app. right. simpl. left.
Qed.

Lemma provenance_step a s s' :
  provenance cfg s → step cfg a s = Ok s' → provenance cfg s'.
Proof.
  intros [Hw He Hs] H.
  assert (∀ i w, workers s !! i = Some w → wpc_probed cfg (trace s) w) as Hlk.
  { intros i w Hi. by apply (Forall_lookup_1 _ _ _ _ Hw Hi). }
  assert (∀ es, Forall (wpc_probed cfg (trace s ++ es)) (workers s)) as Hw'.
  { intros es. eapply Forall_impl; [exact Hw|].
    intros w. apply wpc_probed_mono. }
  assert (∀ es n v now err, EvExec n v now err ∈ trace s →
            ∃ r, domain r = n ∧ hasOIDC r = v ∧ timedOut r = false ∧
                 probed cfg (trace s ++ es) r) as He'.
  { intros es n v now err Hin.
    destruct (He _ _ _ _ Hin) as (r & ? & ? & ? & ?).
    exists r. eauto using probed_mono. }
  assert (∀ es r, r ∈ sends (trace s) → probed cfg (trace s ++ es) r) as Hs'.
  { intros es r Hin. eauto using probed_mono. }
  step_inv H.
  all: try match goal with
       | H : workers ?s !! ?i = Some ?w |- _ =>
           pose proof (Hlk _ _ H) as Hme; simpl in Hme
       end.
  all: split; simpl.
  all: try done.
  all: try (apply Forall_insert); try (apply Forall_app; split);
       try done; simpl; auto.
  all: try (intros n v' now' err' Hin; apply elem_of_app in Hin as [Hin|Hin];
            [by eapply He'|]).
  all: try (intros r' Hin; rewrite sends_app in Hin; simpl in Hin;
            rewrite ?sends_logs in Hin;
            apply elem_of_app in Hin as [Hin|Hin]; [by eapply Hs'|]).
  all: try (by apply elem_of_nil in Hin).
  all: try (by repeat constructor).
  all: try match goal with
       | Hin : EvExec _ _ _ _ ∈ _ |- _ =>
           repeat (apply elem_of_cons in Hin as [Hin|Hin];
                   [simplify_eq|]);
           try (by apply elem_of_nil in Hin);
           try (by apply list_elem_of_fmap in Hin as (? & ? & ?))
       end.
  all: try match goal with
       | H : negb ?b = true |- _ => destruct b; simplify_eq/=
       end.
  all: try match goal with
       | Hin : _ ∈ [_] |- _ =>
           apply list_elem_of_singleton in Hin; subst;
           by apply probed_mono
       end.
  all: try match type of Hme with
       | _ ∧ _ => destruct Hme as [? Hme]
       end.
  all: try (eexists; split; [done|]; split; [done|]).
  all: try (split; [done|]).
  all: try (by apply probed_mono).
  all: try (by eapply probed_here).
Qed.

Lemma provenance_run table f sched s :
  run cfg sched (start cfg table f) = Ok s → provenance cfg s.
Proof.
  apply (run_invariant_all (provenance cfg)); [apply provenance_step|].
  split; simpl; [done| |]; intros; by apply elem_of_nil in H.
Qed.

End Run.
End RunFacts.

(** ** One worker, one domain *)

Module WorkerFacts.
Import Strings Probe Store OutFile Batch Observe Invariants Examples.
Import RunFacts.

Lemma set_worker_twice i w1 w2 s :
  set_worker i w2 (set_worker i w1 s) = set_worker i w2 s.
Proof.
  unfold set_worker, set_workers. simpl. by rewrite list_insert_insert_eq.
Qed.

Lemma lookup_set_worker i w w0 s :
  workers s !! i = Some w0 → workers (set_worker i w s) !! i = Some w.
Proof.
  intros H. simpl. apply list_lookup_insert_eq. by eapply lookup_lt_Some.
Qed.

Lemma result_of_classify cfg d x :
  result_of cfg d x =
  match classify x with
  | Found => Result d true (well_known_url d) false
  | NotFound | TransportError => Result d false "" false
  | TimedOut => Result d false "" true
  end.
Proof.
  unfold result_of, testOIDCWithTimeout, classify.
  destruct x as [|[|]|sc ct]; try done.
  by destruct ((sc =? 200)%Z && Contains ct "application/json").
Qed.

Section OneStep.
Variable cfg : config.
Variables (s : state) (i : nat) (o : oracle).

Lemma step_query d :
  workers s !! i = Some (WQuery d) →
  step cfg (AWorker i o) s =
  Ok (set_worker i
        match QueryRow_Scan (db s) (query_fault o) d with
        | (exists_, None) => WKnown d exists_
        | (_, Some _) => WTest d
        end s).
Proof.
  intros Hi. simpl. unfold worker_step. rewrite Hi.
  by destruct (QueryRow_Scan _ _ _) as [? [?|]].
Qed.

Lemma step_test d :
  workers s !! i = Some (WTest d) →
  step cfg (AWorker i o) s =
  Ok (emit (EvProbe d (exch o) :: (EvLog <$> probe_log d (exch o)))
        (set_worker i
           (if timedOut (result_of cfg d (exch o))
            then WSend (result_of cfg d (exch o))
            else WExec (result_of cfg d (exch o))) s)).
Proof.
  intros Hi. simpl. unfold worker_step, result_of. rewrite Hi.
  by destruct (testOIDCWithTimeout _ _ _) as [[? ?] [|]].
Qed.

Lemma step_exec r :
  workers s !! i = Some (WExec r) →
  step cfg (AWorker i o) s =
  Ok (emit [EvExec (domain r) (hasOIDC r) (now o)
              (ErrOther <$> exec_fault o)]
        (set_worker i (WExecd r (ErrOther <$> exec_fault o))
           (set_db
              match exec_fault o with
              | Some _ => db s
              | None => <[domain r := Row (hasOIDC r) (now o)]> (db s)
              end s))).
Proof.
  intros Hi. simpl. unfold worker_step, Exec_upsert. rewrite Hi.
  by destruct (exec_fault o).
Qed.

Lemma step_execd r err :
  workers s !! i = Some (WExecd r err) →
  step cfg (AWorker i o) s =
  Ok (emit
        match err with
        | Some e => [EvLog (insert_failed_line (domain r) e)]
        | None => []
        end
        (set_worker i
           (if hasOIDC r && negb (String.eqb (outFile cfg) "")
            then WAppend r else WSend r) s)).
Proof. intros Hi. simpl. unfold worker_step. by rewrite Hi. Qed.

Lemma step_append r :
  workers s !! i = Some (WAppend r) →
  step cfg (AWorker i o) s =
  Ok (emit
        (EvLog <$> (appendToFile (out s) (outFile cfg) (oidcURL r)
                      (file o)).2)
        (set_worker i (WSend r)
           (set_out (appendToFile (out s) (outFile cfg) (oidcURL r)
                       (file o)).1 s))).
Proof.
  intros Hi. simpl. unfold worker_step. rewrite Hi.
  by destruct (appendToFile _ _ _ _).
Qed.

Lemma step_send r :
  workers s !! i = Some (WSend r) →
  resultChan_closed s = false →
  length (resultChan s) < capacity cfg →
  step cfg (AWorker i o) s =
  Ok (emit [EvSend r]
        (set_worker i WRecv (set_resultChan (resultChan s ++ [r]) false s))).
Proof.
  intros Hi Hc Hlen. simpl. unfold worker_step, chan_send.
  rewrite Hi, Hc. apply Nat.ltb_lt in Hlen. by rewrite Hlen.
Qed.
End OneStep.

(** C3, as amended. A worker that has taken a domain from the queue and
    whose query runs and returns the domain's row prints the "already
    known" line itself, with the flag of the row, and is back at the head
    of its loop after two steps, whatever the environment does: nothing is
    probed, the table and the output file are unchanged, and nothing is
    sent on the result channel. *)
Theorem known_domain_is_reported_and_skipped
    (cfg : config) (s : state) (i : nat) (d : string) (r : row)
    (o o' : oracle) :
  workers s !! i = Some (WQuery d) →
  db s !! d = Some r →
  query_fault o = None →
  ∃ s', run cfg [AWorker i o; AWorker i o'] s = Ok s' ∧
        workers s' = <[i := WRecv]> (workers s) ∧
        trace s' = trace s ++ [EvKnown d (has_oidc r)] ∧
        stdout (trace s') = stdout (trace s) ++ [known_line d (has_oidc r)] ∧
        probes (trace s') = probes (trace s) ∧
        sends (trace s') = sends (trace s) ∧
        db s' = db s ∧ out s' = out s ∧
        resultChan s' = resultChan s ∧
        resultChan_closed s' = resultChan_closed s ∧
        domainChan s' = domainChan s.
Proof.
  intros Hi Hd Ho.
  exists (emit [EvKnown d (has_oidc r)] (set_worker i WRecv s)).
  split.
  - simpl. unfold worker_step at 1, QueryRow_Scan. rewrite Hi, Ho, Hd.
    unfold worker_step.
    rewrite (lookup_set_worker _ _ _ _ Hi), set_worker_twice. done.
  - simpl. unfold stdout. rewrite bind_app, probes_app, sends_app. simpl.
    by rewrite !app_nil_r.
Qed.

Lemma known_domain_is_reported_and_skipped_witness :
  ∃ s', run (Config ["known.example"] "" 1 30)
          [AWorker 0 o_plain; AWorker 0 o_plain] s_known = Ok s' ∧
        trace s' = [EvKnown "known.example" true] ∧
        stdout (trace s') =
          ["known.example: already known (has_oidc=true)" +:+ nl] ∧
        probes (trace s') = [] ∧ db s' = db s_known.
Proof.
  destruct (known_domain_is_reported_and_skipped
              (Config ["known.example"] "" 1 30) s_known 0 "known.example"
              (Row true "2024-01-01 00:00:00") o_plain o_plain)
    as (s' & Hrun & _ & Htr & Hout & Hp & _ & Hdb & _).
  - reflexivity.
  - vm_compute. reflexivity.
  - reflexivity.
  - exists s'. repeat split; assumption.
Defined.

(** C3 as stated fails: a record in the table is not enough. The domain
    of [cfg_stored] has a row, but the query of the worker fails with
    "database is locked"; the worker then probes the domain, overwrites
    its row with the outcome and sends a result, and no "already known"
    line is printed. *)
Lemma stored_domain_is_probed_when_lookup_fails :
  ∃ s, run Scenarios.cfg_stored Scenarios.sched_locked
         (start Scenarios.cfg_stored Scenarios.table_stored None) = Ok s ∧
       main s = MDone ∧
       Scenarios.table_stored !! "known.example" =
         Some (Row true "2024-01-01 00:00:00") ∧
       probes (trace s) = [("known.example", RequestError)] ∧
       db s !! "known.example" = Some (Row false "") ∧
       sends (trace s) = [Result "known.example" false "" false] ∧
       stdout (trace s) =
         ["known.example: no OIDC endpoint ❌" +:+ nl].
Proof.
  eexists. split; [vm_compute; reflexivity|].
  repeat split; vm_compute; reflexivity.
Qed.

(** C10. Whatever error the query returns, no row or a statement that
    could not run, the worker goes on to probe the domain; when the probe
    does not time out and the upsert runs, the row of the domain is
    written with the probe's verdict, over any row that was there. *)
Theorem failed_lookup_is_probed_and_upserted
    (cfg : config) (s : state) (i : nat) (d : string) (e : error)
    (o o1 o2 : oracle) :
  workers s !! i = Some (WQuery d) →
  (QueryRow_Scan (db s) (query_fault o) d).2 = Some e →
  classify (exch o1) ≠ TimedOut →
  exec_fault o2 = None →
  step cfg (AWorker i o) s = Ok (set_worker i (WTest d) s) ∧
  ∃ s', run cfg [AWorker i o; AWorker i o1; AWorker i o2] s = Ok s' ∧
        probes (trace s') = probes (trace s) ++ [(d, exch o1)] ∧
        db s' =
        <[d := Row (bool_decide (classify (exch o1) = Found)) (now o2)]>
          (db s).
Proof.
  intros Hi He Hto Hex.
  assert (step cfg (AWorker i o) s = Ok (set_worker i (WTest d) s)) as H1.
  { rewrite (step_query cfg s i o d Hi).
    destruct (QueryRow_Scan _ _ _) as [? [?|]]; [done|discriminate]. }
  split; [done|].
  set (s1 := set_worker i (WTest d) s).
  assert (workers s1 !! i = Some (WTest d)) as Hi1
    by (by eapply lookup_set_worker).
  pose proof (step_test cfg s1 i o1 d Hi1) as H2.
  rewrite result_of_classify in H2.
  set (r := Result d (bool_decide (classify (exch o1) = Found))
              (if bool_decide (classify (exch o1) = Found)
               then well_known_url d else "") false).
  assert (step cfg (AWorker i o1) s1 =
          Ok (emit (EvProbe d (exch o1) :: (EvLog <$> probe_log d (exch o1)))
                (set_worker i (WExec r) s1))) as H2'.
  { rewrite H2. subst r. by destruct (classify (exch o1)). }
  clear H2.
  set (s2 := emit _ (set_worker i (WExec r) s1)) in H2'.
  assert (workers s2 !! i = Some (WExec r)) as Hi2.
  { subst s2. simpl. apply list_lookup_insert_eq. rewrite length_insert.
    by eapply lookup_lt_Some. }
  pose proof (step_exec cfg s2 i o2 r Hi2) as H3. rewrite Hex in H3.
  eexists. split.
  - cbn [run]. rewrite H1. fold s1. rewrite H2'. rewrite H3. reflexivity.
  - simpl. rewrite !probes_app. simpl. rewrite probes_logs, app_nil_r.
    done.
Qed.

Lemma failed_lookup_is_probed_and_upserted_witness :
  db s_known !! "known.example" =
    Some (Row true "2024-01-01 00:00:00") ∧
  ∃ s', run (Config ["known.example"] "" 1 30)
          [AWorker 0 o_locked; AWorker 0 o_404; AWorker 0 o_404] s_known =
        Ok s' ∧
        db s' !! "known.example" = Some (Row false "2024-06-01 12:00:00").
Proof.
  split; [vm_compute; reflexivity|].
  destruct (failed_lookup_is_probed_and_upserted
              (Config ["known.example"] "" 1 30) s_known 0 "known.example"
              (ErrOther "database is locked") o_locked o_404 o_404)
    as (_ & s' & Hrun & _ & Hdb).
  - reflexivity.
  - reflexivity.
  - vm_compute. discriminate.
  - reflexivity.
  - exists s'. split; [exact Hrun|]. rewrite Hdb. vm_compute. reflexivity.
Defined.

(** C7. The result of a probe that failed before any response (an error of
    client.Do other than the deadline) is the result of a NotFound probe:
    no URL, hasOIDC unset, timedOut unset. The line printed for it is the
    "no OIDC endpoint" line, and the row written for it has has_oidc =
    false. Only a TimedOut probe gets the "request timed out (skipped)"
    line and only a Found probe the "OIDC endpoint found" line. *)
Theorem transport_error_is_no_endpoint
    (cfg : config) (d : string) (x : exchange) :
  let r := result_of cfg d x in
  classify (DoError false) = TransportError ∧
  (classify x = TransportError ∨ classify x = NotFound →
     r = Result d false "" false) ∧
  report_line r =
    d +:+
    match classify x with
    | Found => ": OIDC endpoint found ✅"
    | NotFound | TransportError => ": no OIDC endpoint ❌"
    | TimedOut => ": request timed out (skipped) ⏰"
    end +:+ nl ∧
  (∀ s i o o2,
     workers s !! i = Some (WTest d) →
     exch o = x → classify x = TransportError → exec_fault o2 = None →
     ∃ s', run cfg [AWorker i o; AWorker i o2] s = Ok s' ∧
           db s' = <[d := Row false (now o2)]> (db s)).
Proof.
  intros r. subst r. rewrite result_of_classify.
  split; [done|]. split; [by intros [->| ->]|].
  split; [by destruct (classify x)|].
  intros s i o o2 Hi <- Hx Hex.
  pose proof (step_test cfg s i o d Hi) as H1.
  rewrite result_of_classify, Hx in H1. cbn [timedOut] in H1.
  set (s1 := emit _ _) in H1.
  assert (workers s1 !! i = Some (WExec (Result d false "" false))) as Hi1.
  { subst s1. simpl. apply list_lookup_insert_eq. by eapply lookup_lt_Some. }
  pose proof (step_exec cfg s1 i o2 _ Hi1) as H2. rewrite Hex in H2.
  eexists. split; [cbn [run]; rewrite H1, H2; reflexivity|done].
Qed.

Lemma transport_error_is_no_endpoint_witness :
  report_line
    (result_of (Config ["down.example"] "" 1 30) "down.example"
       (DoError false)) =
  "down.example: no OIDC endpoint ❌" +:+ nl ∧
  ∃ s', run (Config ["down.example"] "" 1 30)
          [AWorker 0 o_refused; AWorker 0 o_refused] s_testing = Ok s' ∧
        db s' !! "down.example" = Some (Row false "2024-06-01 12:00:00").
Proof.
  destruct (transport_error_is_no_endpoint
              (Config ["down.example"] "" 1 30) "down.example"
              (DoError false)) as (_ & _ & Hline & Hdb).
  split; [exact Hline|].
  destruct (Hdb s_testing 0 o_refused o_refused) as (s' & Hrun & Hs');
    try reflexivity.
  exists s'. split; [exact Hrun|]. rewrite Hs'. vm_compute. reflexivity.
Defined.

End WorkerFacts.

(** ** Whole runs *)

Module BatchFacts.
Import Strings Probe Store OutFile Batch Observe Invariants Examples.
Import RunFacts WorkerFacts.

Lemma outcomes_elem d x tr : (d, x) ∈ probes tr → classify x ∈ outcomes d tr.
Proof.
  intros H. unfold outcomes. apply list_elem_of_fmap.
  exists (d, x). split; [done|]. by apply list_elem_of_filter.
Qed.

Lemma not_timed_out d t x url has :
  testOIDCWithTimeout d t x = (url, has, false) → classify x ≠ TimedOut.
Proof.
  destruct x as [|[|]|sc ct]; simpl; try done.
  by destruct ((sc =? 200)%Z && Contains ct "application/json").
Qed.

(** C1, as amended. A worker whose probe timed out goes from the probe
    straight to the send on the result channel: the table and the output
    file are the same before the probe, after it and after the send. So
    in every state of a run, a domain that had no row when the run
    started and all of whose probes so far timed out has no row, and a
    query for it returns an error, on which a worker probes. *)
Theorem timed_out_probe_is_not_persisted
    (cfg : config) (table : gmap string row) (f : option string)
    (sched : list action) (s : state) :
  run cfg sched (start cfg table f) = Ok s →
  (∀ i d o,
     workers s !! i = Some (WTest d) → classify (exch o) = TimedOut →
     ∃ s1, step cfg (AWorker i o) s = Ok s1 ∧
           workers s1 !! i = Some (WSend (Result d false "" true)) ∧
           db s1 = db s ∧ out s1 = out s ∧
           ∀ o' s2, step cfg (AWorker i o') s1 = Ok s2 →
                    workers s2 !! i = Some WRecv ∧
                    db s2 = db s ∧ out s2 = out s) ∧
  (∀ d, table !! d = None →
        Forall (λ c, c = TimedOut) (outcomes d (trace s)) →
        db s !! d = None ∧
        ∀ fault, (QueryRow_Scan (db s) fault d).2 ≠ None).
Proof.
  intros Hrun. split.
  - intros i d o Hi Hto.
    pose proof (step_test cfg s i o d Hi) as H1.
    rewrite result_of_classify, Hto in H1. cbn [timedOut] in H1.
    eexists. split; [exact H1|].
    assert (i < length (workers s)) by (by eapply lookup_lt_Some).
    split; [by apply list_lookup_insert_eq|].
    split; [done|]. split; [done|].
    intros o' s2 H2. simpl in H2. unfold worker_step in H2. simpl in H2.
    rewrite list_lookup_insert_eq in H2 by done.
    unfold chan_send in H2. repeat case_match; simplify_eq. simpl.
    split; [|done]. apply list_lookup_insert_eq. by rewrite length_insert.
  - intros d Hd Hall.
    assert (db s !! d = None) as Hnone; [|split; [done|]].
    2: { intros fault. unfold QueryRow_Scan. rewrite Hnone.
         by destruct fault. }
    rewrite (db_replay cfg table f sched s Hrun), replay_lookup.
    rewrite last_persisted_none; [done|].
    intros v now Hin.
    destruct (provenance_run cfg table f sched s Hrun) as [_ He _].
    destruct (He _ _ _ _ Hin) as (r & <- & _ & Hr & x & Hx & Htest).
    rewrite Hr in Htest. apply not_timed_out in Htest.
    apply outcomes_elem in Hx.
    by apply (proj1 (Forall_forall _ _) Hall) in Hx.
Qed.

Lemma timed_out_probe_is_not_persisted_witness :
  ∃ s, run cfg_slow sched_slow (start cfg_slow ∅ None) = Ok s ∧
       main s = MDone ∧
       outcomes "slow.example" (trace s) = [TimedOut] ∧
       db s !! "slow.example" = None.
Proof.
  eexists. split; [vm_compute; reflexivity|].
  split; [reflexivity|]. split; [vm_compute; reflexivity|].
  eapply (timed_out_probe_is_not_persisted cfg_slow ∅ None sched_slow).
  - vm_compute. reflexivity.
  - reflexivity.
  - vm_compute. repeat constructor.
Defined.

(** C1 as stated fails: a run of two workers on a list that names one
    domain twice ends with a row for the domain although the most recent
    outcome of the domain in the run is TimedOut. *)
Lemma row_exists_though_last_outcome_timed_out :
  ∃ s, run cfg_dup2 sched_race (start cfg_dup2 ∅ None) = Ok s ∧
       main s = MDone ∧
       last_outcome "dup.example" (trace s) = Some TimedOut ∧
       db s !! "dup.example" = Some (Row false "2024-06-01 12:00:00").
Proof.
  eexists. split; [vm_compute; reflexivity|].
  repeat split; vm_compute; reflexivity.
Qed.

(** *** A batch whose domains all have a row *)

Lemma all_known_step cfg t a s s' :
  no_query_fault a → all_known t s → step cfg a s = Ok s' → all_known t s'.
Proof.
  intros Ha [Hdb Hq Hw Hp] H.
  assert (∀ i w, workers s !! i = Some w → all_known_pc t w) as Hlk.
  { intros i w Hi. by apply (Forall_lookup_1 _ _ _ _ Hw Hi). }
  step_inv H.
  all: try match goal with
       | H : workers ?s !! ?i = Some ?w |- _ =>
           pose proof (Hlk _ _ H) as Hme; simpl in Hme
       end.
  all: try done.
  all: split; simpl in *; rewrite ?probes_app, ?Hp; simpl; try done.
  all: repeat match goal with
       | H : main _ = _ |- _ => rewrite H in *; simpl in *
       | H : domainChan _ = _ |- _ => rewrite H in *; simpl in *
       | H : query_fault _ = _ |- _ => rewrite H in *; simpl in *
       end; try done.
  all: try (apply Forall_insert; simpl; auto).
  all: try (apply Forall_app; split; [done|by repeat constructor]).
  all: rewrite ?app_nil_r, <- ?app_assoc in *; simpl in *; try done.
  all: try (apply Forall_cons in Hq as [? ?]; done).
  destruct Hme as [? Hme]. congruence.
Qed.

(** C5, as amended. When every domain of the batch has a row in the
    table and every query of the run executes without a database error,
    the run probes nothing, in any schedule and whatever the environment
    does otherwise; it does not change the table either. *)
Theorem rerun_probes_nothing
    (cfg : config) (table : gmap string row) (f : option string)
    (sched : list action) (s : state) :
  Forall (λ d, is_Some (table !! d)) (domains cfg) →
  Forall no_query_fault sched →
  run cfg sched (start cfg table f) = Ok s →
  probes (trace s) = [] ∧ db s = table.
Proof.
  intros Hdom Hsched Hrun.
  assert (all_known table s) as [? _ _ ?]; [|done].
  apply (run_invariant cfg no_query_fault (all_known table)
           (λ a s s' Ha Hs, all_known_step cfg table a s s' Ha Hs)
           sched (start cfg table f) s); done.
Qed.

Lemma rerun_probes_nothing_witness :
  ∃ s, run cfg_known sched_known (start cfg_known table_known None) = Ok s ∧
       main s = MDone ∧
       stdout (trace s) =
         [known_line "auth.bad.example" false;
          known_line "auth.good.example" true] ∧
       probes (trace s) = [].
Proof.
  eexists. split; [vm_compute; reflexivity|].
  split; [reflexivity|]. split; [vm_compute; reflexivity|].
  eapply (rerun_probes_nothing cfg_known table_known None sched_known).
  - repeat constructor; vm_compute; eauto.
  - repeat constructor.
  - vm_compute. reflexivity.
Defined.

(** C5 as stated fails: every domain of [cfg_known] has a row in
    [table_known], but the lookup of the first one fails with "database
    is locked", so the batch probes it and overwrites its row. *)
Lemma rerun_probes_when_lookup_fails :
  ∃ s, run cfg_known Scenarios.sched_known_locked
         (start cfg_known table_known None) = Ok s ∧
       main s = MDone ∧
       Forall (λ d, is_Some (table_known !! d)) (domains cfg_known) ∧
       probes (trace s) =
         [("auth.good.example", Response 404 "text/html")] ∧
       db s !! "auth.good.example" =
         Some (Row false "2024-06-01 12:00:00") ∧
       table_known !! "auth.good.example" =
         Some (Row true "2024-01-01 00:00:00").
Proof.
  eexists. split; [vm_compute; reflexivity|].
  split; [vm_compute; reflexivity|].
  split; [repeat constructor; vm_compute; eauto|].
  repeat split; vm_compute; reflexivity.
Qed.

(** *** What a later lookup returns *)

Lemma has_oidc_of_probe d t x url has :
  testOIDCWithTimeout d t x = (url, has, false) →
  has = bool_decide (classify x = Found).
Proof.
  destruct x as [|[|]|sc ct]; simpl; try (intros; by simplify_eq).
  destruct ((sc =? 200)%Z && Contains ct "application/json");
    intros; by simplify_eq.
Qed.

(** C6. In every state of a run, a query for a domain for which the run
    has persisted a result returns the has_oidc value of the last result
    persisted, without error; that value comes from a probe of the domain
    that did not time out, and it is true exactly when that probe was
    Found. This holds whether or not the domain had a row before the
    run. *)
Theorem persisted_outcome_is_looked_up
    (cfg : config) (table : gmap string row) (f : option string)
    (sched : list action) (s : state) (D : string) (r : row) :
  run cfg sched (start cfg table f) = Ok s →
  last_persisted D (trace s) = Some r →
  QueryRow_Scan (db s) None D = (has_oidc r, None) ∧
  ∃ x, (D, x) ∈ probes (trace s) ∧ classify x ≠ TimedOut ∧
       has_oidc r = bool_decide (classify x = Found).
Proof.
  intros Hrun Hlast. split.
  - unfold QueryRow_Scan.
    by rewrite (db_replay cfg table f sched s Hrun), replay_lookup, Hlast.
  - apply last_persisted_some in Hlast.
    destruct (provenance_run cfg table f sched s Hrun) as [_ He _].
    destruct (He _ _ _ _ Hlast) as (r' & <- & Hv & Hto & x & Hx & Htest).
    rewrite Hto in Htest. exists x. split; [done|].
    split; [by eapply not_timed_out|].
    rewrite <- Hv. by eapply has_oidc_of_probe.
Qed.

Lemma persisted_outcome_is_looked_up_witness :
  ∃ s, run cfg_good sched_good (start cfg_good ∅ None) = Ok s ∧
       main s = MDone ∧
       out s = Some ("https://auth.good.example/.well-known/openid-configuration"
                     +:+ nl) ∧
       QueryRow_Scan (db s) None "auth.good.example" = (true, None).
Proof.
  eexists. split; [vm_compute; reflexivity|].
  split; [reflexivity|]. split; [vm_compute; reflexivity|].
  eapply (persisted_outcome_is_looked_up cfg_good ∅ None sched_good _
            "auth.good.example" (Row true "2024-06-01 12:00:01")).
  - vm_compute. reflexivity.
  - vm_compute. reflexivity.
Defined.

(** *** Duplicates in the input *)

Lemma read_domains_omap TrimSpace prefix lines :
  Input.read_domains TrimSpace prefix lines =
  omap (queued_name TrimSpace prefix) lines.
Proof.
  unfold Input.read_domains.
  assert (∀ acc, fold_left (Input.scan_line TrimSpace prefix) lines acc =
                 acc ++ omap (queued_name TrimSpace prefix) lines) as H;
    [|apply H].
  induction lines as [|l lines IH]; intros acc; simpl.
  - by rewrite app_nil_r.
  - rewrite IH. unfold Input.scan_line, queued_name.
    destruct (String.eqb (TrimSpace l) ""); [done|].
    by rewrite <- app_assoc.
Qed.

End BatchFacts.

(** ** Failures during the batch, and its end *)

Module EndFacts.
Import Strings Probe Store OutFile Batch Observe Invariants Examples.
Import RunFacts WorkerFacts BatchFacts.

Lemma total_pending_zero (ws : list wpc) :
  total pending ws = 0 → Forall (λ w, w = WDone) ws.
Proof.
  intros H. apply Forall_lookup_2. intros i w Hi.
  pose proof (total_lookup_le pending ws i w Hi) as Hle.
  destruct w; simpl in Hle; try lia. done.
Qed.

Section Run.
Variable cfg : config.

Lemma run_no_crash_from s sched msg :
  wf cfg s → run cfg sched s ≠ Crash msg.
Proof.
  revert s. induction sched as [|a l IH]; intros s Hs; simpl; [done|].
  destruct (step cfg a s) as [s1| |m] eqn:Hstep; [|done|].
  - apply IH. by apply wf_step with a s.
  - intros ?; simplify_eq. by apply (step_no_crash cfg a s msg).
Qed.

Lemma wf_run_from s sched s' :
  wf cfg s → run cfg sched s = Ok s' → wf cfg s'.
Proof. apply (run_invariant_all cfg (wf cfg)), wf_step. Qed.

(** When [processFile] returns, every worker has left its loop and
    every result sent was printed, in the order of the sends. *)
Lemma wf_done_all s :
  wf cfg s → main s = MDone →
  Forall (λ w, w = WDone) (workers s) ∧
  reports (trace s) = sends (trace s).
Proof.
  intros [Hm Hwg Hcl Hcd Hdn Hcnt Hfifo] Hmain.
  destruct (Hdn Hmain) as [Hrc Hc]. split.
  - apply total_pending_zero. specialize (Hcl (or_intror Hc)). lia.
  - rewrite Hfifo, Hmain, Hrc. simpl. by rewrite app_nil_r.
Qed.

(** *** A worker whose upsert failed still logs and sends *)

Lemma owes_step i r e a s s' :
  owes i r e s → step cfg a s = Ok s' → owes i r e s'.
Proof.
  intros Ho H. unfold owes in *. step_inv H; simpl.
  all: try done.
  all: destruct Ho as [Ho|[Hlog [Ho|[Ho|Ho]]]].
  all: try (rewrite (lookup_app_l_Some _ _ _ _ Ho)).
  all: try match goal with
       | |- context [<[?j := _]> _ !! ?i] =>
           destruct (decide (i = j)) as [->|Hne];
           [rewrite ?list_lookup_insert_eq by (by eapply lookup_lt_Some)
           |rewrite ?list_lookup_insert_ne by done]
       end.
  all: simplify_eq.
  all: rewrite ?sends_app, ?elem_of_app; simpl.
  all: try (rewrite ?sends_logs; simpl).
  all: try (by left).
  all: try (right; split; [by auto using list_elem_of_here|]).
  all: try (by left); try (by right; left); try (by right; right; left).
  all: try (right; right; right; by apply list_elem_of_here).
  all: try (by right; right).
  all: try (right; right; left; done).
Qed.

Lemma owes_run i r e sched s s' :
  owes i r e s → run cfg sched s = Ok s' → owes i r e s'.
Proof.
  apply (run_invariant_all cfg (owes i r e)).
  intros a s1 s2. apply owes_step.
Qed.

(** C9. While main is still filling the queue no worker exists and
    nothing has happened yet; when the first worker is about to be
    started the queue holds the whole list and is closed, and workers
    only ever see it closed. The result channel is closed only when all
    the [parallel] workers that were started have left their loop. The
    loop of main over the result channel ends: a run never has more
    steps than the measure of its start, it can always be continued to the
    return of [processFile], and at the return the channel is
    closed and empty and main has printed exactly the results that were
    sent, one line each, in the order of the sends. *)
Theorem queue_filled_first_and_results_closed_last
    (table : gmap string row) (f : option string)
    (sched : list action) (s : state) :
  run cfg sched (start cfg table f) = Ok s →
  (∀ rest, main s = MEnqueue rest →
     workers s = [] ∧ trace s = [] ∧ domainChan_closed s = false ∧
     domainChan s ++ rest = domains cfg) ∧
  (workers s = [] → (∃ i, main s = MSpawn i) →
     domainChan s = domains cfg ∧ domainChan_closed s = true) ∧
  (workers s ≠ [] → domainChan_closed s = true ∧ unsent (main s) = []) ∧
  (resultChan_closed s = true →
     Z.of_nat (length (workers s)) = Z.max 0 (parallel cfg) ∧
     Forall (λ w, w = WDone) (workers s)) ∧
  (main s = MDone →
     resultChan_closed s = true ∧ resultChan s = [] ∧
     reports (trace s) = sends (trace s) ∧
     report_line <$> sends (trace s) ⊆ stdout (trace s)) ∧
  length sched + measure cfg s ≤ measure cfg (start cfg table f) ∧
  (∃ sched' s', run cfg sched' s = Ok s' ∧ main s' = MDone).
Proof.
  intros Hrun. pose proof (wf_run cfg table f sched s Hrun) as Hwf.
  pose proof Hwf as [Hm Hwg Hcl Hcd Hdn Hcnt Hfifo].
  split; [|split; [|split; [|split; [|split; [|split]]]]].
  - intros rest Hr. rewrite Hr in Hm. by destruct_and?.
  - intros Hw [i Hi]. rewrite Hi in Hm. destruct_and?. auto.
  - intros Hw. destruct (main s); destruct_and?; done.
  - intros Hc. apply Hcd in Hc. pose proof (Hcl (or_intror Hc)) as Hz.
    split; [|apply total_pending_zero; lia].
    destruct (main s); destruct_and?; congruence.
  - intros Hd. destruct (Hdn Hd) as [Hrc Hc].
    destruct (wf_done_all s Hwf Hd) as [_ Hrep].
    split; [by apply Hcd|]. split; [done|]. split; [done|].
    rewrite <- Hrep. intros l Hl.
    apply list_elem_of_fmap in Hl as (r & -> & Hr).
    unfold stdout, reports in *.
    apply list_elem_of_bind in Hr as (ev & Hr & Hev).
    apply list_elem_of_bind. exists ev. split; [|done].
    destruct ev; simpl in *; try (by apply elem_of_nil in Hr).
    apply list_elem_of_singleton in Hr as ->. by apply list_elem_of_here.
  - by apply run_bounded.
  - by apply run_completes.
Qed.
End Run.

Lemma queue_filled_first_and_results_closed_last_witness :
  ∃ s, run cfg_dup2 sched_race (start cfg_dup2 ∅ None) = Ok s ∧
       main s = MDone ∧
       Forall (λ w, w = WDone) (workers s) ∧
       reports (trace s) = sends (trace s).
Proof.
  pose proof (λ s, queue_filled_first_and_results_closed_last cfg_dup2
                     ∅ None sched_race s) as H.
  edestruct H as (_ & _ & _ & Hclosed & Hdone & _);
    [vm_compute; reflexivity|].
  eexists. split; [vm_compute; reflexivity|]. split; [reflexivity|].
  split; [apply Hclosed; reflexivity | apply Hdone; reflexivity].
Defined.

End EndFacts.

(** ** Accounting for the domains of a batch: what is handled, kept and
    reported *)

Module AccountingFacts.
Import Strings Probe Store OutFile Batch Observe Invariants Examples.
Import RunFacts WorkerFacts BatchFacts EndFacts Accounting Scenarios.

Lemma count_app d l1 l2 : count d (l1 ++ l2) = count d l1 + count d l2.
Proof. unfold count. by rewrite filter_app, length_app. Qed.

Lemma count_cons d x l :
  count d (x :: l) = (if decide (x = d) then 1 else 0) + count d l.
Proof. unfold count. rewrite filter_cons. by case_decide. Qed.

Lemma knowns_app tr1 tr2 : knowns (tr1 ++ tr2) = knowns tr1 ++ knowns tr2.
Proof. apply bind_app. Qed.

Lemma knowns_logs (l : list string) : knowns (EvLog <$> l) = [].
Proof. by induction l. Qed.

Lemma outcomes_app d tr1 tr2 :
  outcomes d (tr1 ++ tr2) = outcomes d tr1 ++ outcomes d tr2.
Proof. unfold outcomes. by rewrite probes_app, filter_app, fmap_app. Qed.

Lemma outcomes_logs d (l : list string) : outcomes d (EvLog <$> l) = [].
Proof. unfold outcomes. by rewrite probes_logs. Qed.

Lemma outcomes_probe d d' x tr :
  length (outcomes d (EvProbe d' x :: tr)) =
  (if decide (d' = d) then 1 else 0) + length (outcomes d tr).
Proof.
  unfold outcomes. change (probes (EvProbe d' x :: tr))
    with ((d', x) :: probes tr).
  rewrite filter_cons. simpl. by case_decide.
Qed.

Lemma accounted_step cfg name a s s' :
  accounted cfg name s → step cfg a s = Ok s' → accounted cfg name s'.
Proof.
  unfold accounted. intros Hacc H. step_inv H.
  all: try match goal with
       | H : workers ?s !! ?i = Some ?w, _ : context [holding ?n] |- _ =>
           pose proof (λ w', total_insert (holding n) _ _ _ w' H) as Hins
       end.
  all: simpl in *.
  all: repeat match goal with
       | H : main _ = _ |- _ => rewrite H in *
       | H : domainChan _ = _ |- _ => rewrite H in *
       end; simpl in *.
  all: rewrite ?outcomes_app, ?knowns_app, ?fmap_app, ?length_app,
         ?count_app, ?total_app, ?outcomes_probe, ?outcomes_logs,
         ?knowns_logs in *; simpl in *.
  all: rewrite ?count_cons, ?count_app, ?count_cons in *; simpl in *.
  all: try match goal with
       | |- context [total (holding _) (<[?i := ?w']> _)] =>
           specialize (Hins w'); simpl in Hins
       end.
  all: rewrite ?knowns_logs in *; simpl in *.
  all: repeat case_decide; simplify_eq; try lia.
  all: unfold count in *; simpl in *; try lia.
Qed.

Lemma accounted_run cfg d table f sched s :
  run cfg sched (start cfg table f) = Ok s → accounted cfg d s.
Proof.
  apply (run_invariant_all cfg (accounted cfg d)).
  - intros a s1 s2. apply accounted_step.
  - unfold accounted, count, outcomes, total. simpl. lia.
Qed.
Lemma carried_count_step cfg a s s' :
  length (probes (trace s)) =
    length (sends (trace s)) + total carrying (workers s) →
  step cfg a s = Ok s' →
  length (probes (trace s')) =
    length (sends (trace s')) + total carrying (workers s').
Proof.
  intros Hc H. step_inv H.
  all: try match goal with
       | H : workers ?s !! ?i = Some ?w |- _ =>
           pose proof (λ w', total_insert carrying _ _ _ w' H) as Hins
       end.
  all: simpl in *.
  all: repeat (rewrite ?probes_app, ?sends_app, ?length_app, ?total_app,
         ?probes_logs, ?sends_logs; simpl).
  all: try match goal with
       | |- context [total carrying (<[?i := ?w']> _)] =>
           specialize (Hins w'); simpl in Hins
       end.
  all: try lia.
Qed.

Lemma carried_count cfg table f sched s :
  run cfg sched (start cfg table f) = Ok s →
  length (probes (trace s)) =
    length (sends (trace s)) + total carrying (workers s).
Proof.
  apply (run_invariant_all cfg
           (λ s, length (probes (trace s)) =
                 length (sends (trace s)) + total carrying (workers s))).
  - intros a s1 s2. apply carried_count_step.
  - done.
Qed.

Lemma delivered_step cfg d x a s s' :
  delivered cfg d x s → step cfg a s = Ok s' → delivered cfg d x s'.
Proof.
  unfold delivered. intros Hd H.
  step_inv H; simpl.
  all: rewrite ?probes_app, ?sends_app; simpl;
       rewrite ?probes_logs, ?sends_logs, ?app_nil_r.
  all: try done.
  all: intros Hin.
  (* the probe just made *)
  all: try (apply elem_of_app in Hin as [Hin|Hin];
            [|apply list_elem_of_singleton in Hin; simplify_eq;
              right; eexists _, _; split;
              [apply list_lookup_insert_eq; by eapply lookup_lt_Some|];
              unfold result_of;
              match goal with H : testOIDCWithTimeout _ _ _ = _ |- _ =>
                rewrite H end; done]).
  (* an earlier probe *)
  all: destruct (Hd Hin) as [Hs|(j & w0 & Hj & Hc)];
       [left; rewrite ?elem_of_app; by auto|].
  all: try (right; exists j, w0; split; [|done];
            by apply lookup_app_l_Some).
  all: try (right; by exists j, w0).
  all: match goal with
       | H : workers _ !! ?i = Some _ |- _ =>
           destruct (decide (j = i)) as [->|Hne];
           [|right; exists j, w0; by rewrite list_lookup_insert_ne]
       end.
  all: simplify_eq; simpl in Hc; try done; subst.
  all: try (right; eexists _, _; split;
            [apply list_lookup_insert_eq; by eapply lookup_lt_Some|done]).
  all: left; apply elem_of_app; right; by apply list_elem_of_here.
Qed.

Lemma delivered_run cfg d x table f sched s :
  run cfg sched (start cfg table f) = Ok s → delivered cfg d x s.
Proof.
  apply (run_invariant_all cfg (delivered cfg d x)).
  - intros a s1 s2. apply delivered_step.
  - intros H. by apply elem_of_nil in H.
Qed.

Lemma drained_step cfg a s s' :
  wf cfg s → drained s → step cfg a s = Ok s' → drained s'.
Proof.
  intros [Hm _ _ _ _ _ _] Hd H. unfold drained in *.
  destruct (main s) eqn:Hmain; step_inv H; simpl.
  all: destruct_and?.
  all: intros j Hj.
  all: try (by eapply Hd).
  all: try match goal with
       | H : workers _ = [] |- _ => by rewrite H in Hj
       end.
  all: try (apply lookup_app_Some in Hj as [Hj|[_ Hj]];
            [by eapply Hd|];
            by destruct (j - length (workers s)) as [|[|?]]).
  all: try match goal with
       | H : workers _ !! ?i = Some _ |- _ =>
           destruct (decide (j = i)) as [->|Hne];
           [rewrite list_lookup_insert_eq in Hj
              by (by eapply lookup_lt_Some); simplify_eq
           |rewrite list_lookup_insert_ne in Hj by done]
       end.
  all: try done.
  all: try (by eapply Hd).
  all: try match goal with
       | H : domainChan _ = _ :: _ |- _ =>
           rewrite (Hd _ Hj) in H; discriminate
       end.
  all: by specialize (Hd _ Hj).
Qed.

Lemma drained_run cfg table f sched s :
  run cfg sched (start cfg table f) = Ok s → drained s.
Proof.
  intros Hrun.
  assert (wf cfg s ∧ drained s) as [_ ?]; [|done].
  revert Hrun.
  apply (run_invariant_all cfg (λ s, wf cfg s ∧ drained s)).
  - intros a s1 s2 [Hwf Hd] Hs. split.
    + by eapply wf_step.
    + by eapply drained_step.
  - split; [apply wf_start|]. by intros j Hj.
Qed.

Lemma db_replay_step cfg table a s s' :
  db s = replay (trace s) table → step cfg a s = Ok s' →
  db s' = replay (trace s') table.
Proof.
  intros Hdb H. step_inv H; simpl.
  all: rewrite ?replay_app, ?replay_logs; simpl; rewrite ?replay_logs.
  all: by rewrite <- ?Hdb.
Qed.

Lemma known_origin_step cfg table d a s s' :
  db s = replay (trace s) table →
  known_origin table d s → step cfg a s = Ok s' → known_origin table d s'.
Proof.
  unfold known_origin. intros Hdb Hk H.
  assert (∀ es, is_Some (table !! d) ∨
                (∃ v now, EvExec d v now None ∈ trace s) →
          is_Some (table !! d) ∨
          ∃ v now, EvExec d v now None ∈ trace s ++ es) as Hmono.
  { intros es [?|(v & now & ?)]; [by left|right].
    exists v, now. apply elem_of_app. by left. }
  step_inv H; simpl.
  all: rewrite ?knowns_app, ?fmap_app; simpl; rewrite ?knowns_logs.
  all: rewrite ?app_nil_r.
  all: try done.
  all: intros [Hin|(j & v & Hj)].
  (* an "already known" line *)
  all: try (solve [first [apply Hmono|idtac]; apply Hk; by left]).
  all: try (apply elem_of_app in Hin as [Hin|Hin];
            [solve [first [apply Hmono|idtac]; apply Hk; by left]|];
            apply list_elem_of_singleton in Hin; subst;
            apply Hmono, Hk; right; by eauto).
  (* a worker about to print one *)
  all: try (solve [first [apply Hmono|idtac]; apply Hk; right; by eauto]).
  all: try (apply lookup_app_Some in Hj as [Hj|[_ Hj]];
            [apply Hk; right; by eauto|];
            by destruct (j - length (workers s)) as [|[|?]]).
  all: match goal with
       | H : workers _ !! ?i = Some _ |- _ =>
           destruct (decide (j = i)) as [->|Hne];
           [rewrite list_lookup_insert_eq in Hj
              by (by eapply lookup_lt_Some); simplify_eq
           |rewrite list_lookup_insert_ne in Hj by done;
            first [apply Hmono|idtac]; apply Hk; right; by eauto]
       end.
  match goal with
  | H : db _ !! _ = Some _ |- _ => rewrite Hdb, replay_lookup in H
  end.
  destruct (last_persisted d (trace s)) as [r'|] eqn:E; [right|left; eauto].
  apply last_persisted_some in E. eauto.
Qed.

Lemma known_origin_run cfg table d f sched s :
  run cfg sched (start cfg table f) = Ok s → known_origin table d s.
Proof.
  intros Hrun.
  assert (db s = replay (trace s) table ∧ known_origin table d s) as [_ ?];
    [|done].
  revert Hrun.
  apply (run_invariant_all cfg
           (λ s, db s = replay (trace s) table ∧ known_origin table d s)).
  - intros a s1 s2 [Hdb Hk] Hs. split.
    + by eapply db_replay_step.
    + by eapply known_origin_step.
  - split; [done|]. intros [Hin|(j & v & Hj)]; [by apply elem_of_nil in Hin|].
    done.
Qed.

Lemma kept_step cfg d r a s s' :
  no_query_fault a → kept d r s → step cfg a s = Ok s' → kept d r s'.
Proof.
  intros Ha [Hrow Hw Hp] H.
  assert (∀ i w, workers s !! i = Some w → spares d w) as Hlk.
  { intros i w Hi. by apply (Forall_lookup_1 _ _ _ _ Hw Hi). }
  step_inv H.
  all: try match goal with
       | H : workers ?s !! ?i = Some ?w |- _ =>
           pose proof (Hlk _ _ H) as Hme; simpl in Hme
       end.
  all: split; simpl in *.
  all: rewrite ?outcomes_app, ?Hp; simpl; try done.
  all: try (apply Forall_insert; simpl; auto).
  all: try (apply Forall_app; split; [done|by repeat constructor]).
  all: try (by rewrite lookup_insert_ne).
  all: try (intros ->; congruence).
  all: unfold outcomes; simpl; rewrite ?probes_logs; simpl.
  all: try done.
  all: by rewrite filter_cons_False.
Qed.

Lemma kept_run cfg table f d r sched s :
  table !! d = Some r → Forall no_query_fault sched →
  run cfg sched (start cfg table f) = Ok s → kept d r s.
Proof.
  intros Hd Hsched Hrun.
  apply (run_invariant cfg no_query_fault (kept d r)
           (λ a s s' Ha Hs, kept_step cfg d r a s s' Ha Hs)
           sched (start cfg table f) s); done.
Qed.

(** String append is associative. *)
Lemma append_assoc (a b c : string) : (a +:+ b) +:+ c = a +:+ (b +:+ c).
Proof.
  induction a as [|x a IH]; [done|].
  rewrite !StringFacts.append_cons. by rewrite IH.
Qed.

Lemma append_empty_r (a : string) : a +:+ "" = a.
Proof.
  induction a as [|x a IH]; [done|].
  rewrite StringFacts.append_cons. by rewrite IH.
Qed.

Lemma file_grows_step cfg f a s s' :
  file_grows f s → step cfg a s = Ok s' → file_grows f s'.
Proof.
  intros [Hex [rest Hrest]] H. step_inv H; simpl.
  all: try (split; [done|by exists rest]).
  all: match goal with
       | H : appendToFile _ _ _ ?o = _ |- _ =>
           unfold appendToFile in H; destruct o; simplify_eq
       end.
  all: split; simpl; try (by eauto).
  all: try (by exists rest).
  all: rewrite Hrest, append_assoc; by eexists.
Qed.

Lemma file_grows_run cfg table f sched s :
  run cfg sched (start cfg table f) = Ok s → file_grows f s.
Proof.
  apply (run_invariant_all cfg (file_grows f)).
  - intros a s1 s2. apply file_grows_step.
  - split; [done|]. exists "". by rewrite append_empty_r.
Qed.

Lemma quiet_mono cfg tr es : quiet cfg (tr ++ es) → quiet cfg tr.
Proof.
  intros [?|H]; [by left|right].
  rewrite probes_app in H. by apply Forall_app in H as [? _].
Qed.

Lemma file_kept_step cfg f a s s' :
  file_kept cfg f s → step cfg a s = Ok s' → file_kept cfg f s'.
Proof.
  unfold file_kept. intros Hk H.
  step_inv H; simpl.
  all: intros Hq.
  all: assert (quiet cfg (trace s)) as Hq0
         by (first [exact Hq | by eapply quiet_mono]).
  all: destruct (Hk Hq0) as [Hout Hw].
  all: try match goal with
       | H : workers ?s !! ?i = Some ?w |- _ =>
           pose proof (Forall_lookup_1 _ _ _ _ Hw H) as Hme; simpl in Hme
       end.
  all: try done.
  all: split; try done.
  all: try (apply Forall_insert; simpl; auto).
  all: try (apply Forall_app; split; [done|by repeat constructor]).
  all: try congruence.
  destruct b; simplify_eq/=.
  destruct Hq as [->|Hq]; [by rewrite andb_false_r|].
  rewrite probes_app in Hq. apply Forall_app in Hq as [_ Hq]. simpl in Hq.
  apply Forall_cons in Hq as [Hq _]. simpl in Hq.
  rewrite (has_oidc_of_probe _ _ _ _ _ H3).
  by rewrite bool_decide_eq_false_2.
Qed.

Lemma file_kept_run cfg table f sched s :
  run cfg sched (start cfg table f) = Ok s → file_kept cfg f s.
Proof.
  apply (run_invariant_all cfg (file_kept cfg f)).
  - intros a s1 s2. apply file_kept_step.
  - intros _. by split.
Qed.

Lemma idle_step cfg table f a s s' :
  domains cfg = [] ∨ (parallel cfg ≤ 0)%Z →
  wf cfg s → idle table f s → step cfg a s = Ok s' → idle table f s'.
Proof.
  intros Hcfg [Hm _ _ _ _ _ Hfifo] [Htr Hdb Hout Hw Hq] H.
  assert (∀ i w, workers s !! i = Some w → resting w) as Hlk.
  { intros i w Hi. by apply (Forall_lookup_1 _ _ _ _ Hw Hi). }
  rewrite Htr in Hfifo. simpl in Hfifo.
  destruct (main s) eqn:Hmain; step_inv H.
  all: destruct_and?; try done.
  all: try match goal with
       | H : workers ?s !! ?i = Some ?w |- _ =>
           pose proof (Hlk _ _ H) as [?|?]; simplify_eq;
           assert (workers s ≠ []) as Hne by (by intros E; rewrite E in H);
           specialize (Hq Hne); try discriminate
       end.
  all: split; simpl; try done.
  all: try (apply Forall_insert; [done|by (left + right)]).
  all: try (apply Forall_app; split; [done|]; repeat constructor; by left).
  all: try (intros _; by auto).
  intros _. apply Z.ltb_lt in H2.
  destruct Hcfg as [Hd|?]; [|lia].
  destruct (workers s) eqn:E; [rewrite H6, Hd|]; auto.
Qed.

Lemma idle_run cfg table f sched s :
  domains cfg = [] ∨ (parallel cfg ≤ 0)%Z →
  run cfg sched (start cfg table f) = Ok s → idle table f s.
Proof.
  intros Hcfg Hrun.
  assert (wf cfg s ∧ idle table f s) as [_ ?]; [|done].
  revert Hrun.
  apply (run_invariant_all cfg (λ s, wf cfg s ∧ idle table f s)).
  - intros a s1 s2 [Hwf Hi] Hs. split.
    + by eapply wf_step.
    + by eapply idle_step.
  - split; [apply wf_start|]. by split.
Qed.

(** *** What a batch does with the domains of its list *)

Lemma count_pos_elem (d : string) (l : list string) :
  0 < count d l → d ∈ l.
Proof.
  unfold count. intros H.
  destruct (filter (λ x, x = d) l) as [|x l'] eqn:E; [simpl in H; lia|].
  assert (x ∈ filter (λ x, x = d) l) as Hx by (rewrite E; left).
  apply list_elem_of_filter in Hx as [-> ?]. done.
Qed.

Lemma count_elem_pos (d : string) (l : list string) :
  d ∈ l → 0 < count d l.
Proof.
  unfold count. intros H.
  assert (d ∈ filter (λ x, x = d) l) as Hx by (by apply list_elem_of_filter).
  destruct (filter (λ x, x = d) l); [by apply elem_of_nil in Hx|simpl; lia].
Qed.

Lemma total_all_done (f : wpc → nat) (ws : list wpc) :
  f WDone = 0 → Forall (λ w, w = WDone) ws → total f ws = 0.
Proof.
  intros Hf. unfold total. induction 1 as [|w ws -> _ IH]; simpl; [done|].
  rewrite Hf. exact IH.
Qed.

Lemma handled_at_return cfg table f sched s d :
  (0 < parallel cfg)%Z →
  run cfg sched (start cfg table f) = Ok s → Batch.main s = MDone →
  length (outcomes d (trace s)) + count d (knowns (trace s)).*1 =
  count d (domains cfg).
Proof.
  intros Hp Hrun Hm.
  pose proof (accounted_run cfg d table f sched s Hrun) as Hacc.
  pose proof (wf_run cfg table f sched s Hrun) as Hwf.
  pose proof (drained_run cfg table f sched s Hrun) as Hdr.
  destruct (wf_done_all cfg s Hwf Hm) as [Hall _].
  destruct Hwf as [Hmain _ _ _ _ _ _]. rewrite Hm in Hmain.
  destruct Hmain as (_ & _ & Hlen).
  unfold accounted in Hacc. rewrite Hm in Hacc. simpl in Hacc.
  rewrite (total_all_done (holding d) _ eq_refl Hall) in Hacc.
  destruct (workers s) as [|w ws] eqn:Hws; [simpl in Hlen; lia|].
  assert (w = WDone) as -> by (by inversion Hall).
  rewrite (Hdr 0) in Hacc by (by rewrite Hws).
  simpl in Hacc. unfold count in *. simpl in Hacc. lia.
Qed.

Lemma probe_listed cfg table f sched s d x :
  run cfg sched (start cfg table f) = Ok s →
  (d, x) ∈ probes (trace s) → d ∈ domains cfg.
Proof.
  intros Hrun Hin. apply count_pos_elem.
  pose proof (accounted_run cfg d table f sched s Hrun) as Hacc.
  apply outcomes_elem in Hin. unfold accounted in Hacc.
  destruct (outcomes d (trace s)); [by apply elem_of_nil in Hin|].
  simpl in Hacc. lia.
Qed.

Lemma exec_listed cfg table f sched s n v now err :
  run cfg sched (start cfg table f) = Ok s →
  EvExec n v now err ∈ trace s → n ∈ domains cfg.
Proof.
  intros Hrun Hin.
  destruct (provenance_run cfg table f sched s Hrun) as [_ Hexec _].
  destruct (Hexec n v now err Hin) as (r & <- & _ & _ & x & Hx & _).
  by eapply probe_listed.
Qed.

Lemma drained_at_return cfg table f sched s :
  (0 < parallel cfg)%Z →
  run cfg sched (start cfg table f) = Ok s → Batch.main s = MDone →
  domainChan s = [].
Proof.
  intros Hp Hrun Hm.
  pose proof (wf_run cfg table f sched s Hrun) as Hwf.
  destruct (wf_done_all cfg s Hwf Hm) as [Hall _].
  destruct Hwf as [Hmain _ _ _ _ _ _]. rewrite Hm in Hmain.
  destruct Hmain as (_ & _ & Hlen).
  destruct (workers s) as [|w ws] eqn:Hws; [simpl in Hlen; lia|].
  assert (w = WDone) as -> by (by inversion Hall).
  apply (drained_run cfg table f sched s Hrun 0). by rewrite Hws.
Qed.

(** X1. When [processFile] returns from a batch with at least one worker,
    the queue is empty, every worker has left its loop, and every
    occurrence of a domain in the list has been handled exactly once: the
    number of probes of the domain plus the number of "already known"
    lines for it is the number of times it is listed. *)
Theorem every_occurrence_is_handled_once
    (cfg : config) (table : gmap string row) (f : option string)
    (sched : list action) (s : state) (d : string) :
  (0 < parallel cfg)%Z →
  run cfg sched (start cfg table f) = Ok s →
  Batch.main s = MDone →
  domainChan s = [] ∧
  Forall (λ w, w = WDone) (workers s) ∧
  length (outcomes d (trace s)) + count d (knowns (trace s)).*1 =
  count d (domains cfg).
Proof.
  intros Hp Hrun Hm. split_and!.
  - by eapply drained_at_return.
  - pose proof (wf_run cfg table f sched s Hrun) as Hwf.
    by destruct (wf_done_all cfg s Hwf Hm).
  - by eapply handled_at_return.
Qed.

(** The run [sched_seq] of one worker over a list that names the domain
    twice: one probe and one "already known" line. *)
Lemma every_occurrence_is_handled_once_witness :
  ∃ s, run cfg_dup1 sched_seq (start cfg_dup1 ∅ None) = Ok s ∧
       length (outcomes "dup.example" (trace s)) +
       count "dup.example" (knowns (trace s)).*1 = 2.
Proof.
  eexists. split; [vm_compute; reflexivity|].
  pose proof (λ s, every_occurrence_is_handled_once cfg_dup1 ∅ None
                     sched_seq s "dup.example") as H.
  edestruct H as (_ & _ & Hcount);
    [reflexivity|vm_compute; reflexivity|vm_compute; reflexivity|].
  exact Hcount.
Defined.

(** X2. At no point of a batch has a domain been handled more often than
    it is listed: the probes of the domain and the "already known" lines
    for it together never outnumber its occurrences in the list. A domain
    listed once is probed at most once. *)
Theorem no_more_handled_than_listed
    (cfg : config) (table : gmap string row) (f : option string)
    (sched : list action) (s : state) (d : string) :
  run cfg sched (start cfg table f) = Ok s →
  length (outcomes d (trace s)) + count d (knowns (trace s)).*1 ≤
  count d (domains cfg).
Proof.
  intros Hrun.
  pose proof (accounted_run cfg d table f sched s Hrun) as Hacc.
  unfold accounted in Hacc. lia.
Qed.

Lemma no_more_handled_than_listed_witness :
  ∃ s, run cfg_dup2 sched_race (start cfg_dup2 ∅ None) = Ok s ∧
       length (outcomes "dup.example" (trace s)) +
       count "dup.example" (knowns (trace s)).*1 ≤ 2.
Proof.
  eexists. split; [vm_compute; reflexivity|].
  by apply (no_more_handled_than_listed cfg_dup2 ∅ None sched_race).
Defined.

(** X3. A batch leaves alone what is not in its list: a domain that the
    list does not name is not probed, not reported, gets no upsert, and
    has at every point of the run the row it had at the start, or none. *)
Theorem unlisted_domain_is_untouched
    (cfg : config) (table : gmap string row) (f : option string)
    (sched : list action) (s : state) (d : string) :
  d ∉ domains cfg →
  run cfg sched (start cfg table f) = Ok s →
  outcomes d (trace s) = [] ∧
  (d ∉ (knowns (trace s)).*1) ∧
  (∀ v now err, EvExec d v now err ∉ trace s) ∧
  (∀ r, r ∈ sends (trace s) → domain r ≠ d) ∧
  db s !! d = table !! d.
Proof.
  intros Hd Hrun.
  pose proof (accounted_run cfg d table f sched s Hrun) as Hacc.
  unfold accounted in Hacc.
  assert (count d (domains cfg) = 0) as Hz.
  { destruct (count d (domains cfg)) eqn:E; [done|].
    destruct Hd. apply count_pos_elem. lia. }
  assert (∀ v now err, EvExec d v now err ∉ trace s) as Hexec.
  { intros v now err Hin. apply Hd. by eapply exec_listed. }
  split_and!.
  - destruct (outcomes d (trace s)); [done|simpl in Hacc; lia].
  - intros Hin. apply count_elem_pos in Hin. lia.
  - done.
  - intros r Hr <-.
    destruct (provenance_run cfg table f sched s Hrun) as [_ _ Hsends].
    destruct (Hsends r Hr) as (x & Hx & _).
    apply Hd. by eapply probe_listed.
  - rewrite (db_replay cfg table f sched s Hrun), replay_lookup.
    rewrite last_persisted_none; [done|]. intros v now. apply Hexec.
Qed.

Lemma unlisted_domain_is_untouched_witness :
  ∃ s, run cfg_good sched_good
         (start cfg_good {["other.example" := Row false "t0"]} None) = Ok s ∧
       db s !! "other.example" = Some (Row false "t0").
Proof.
  eexists. split; [vm_compute; reflexivity|].
  pose proof (λ s, unlisted_domain_is_untouched cfg_good
                     {["other.example" := Row false "t0"]} None
                     sched_good s "other.example") as H.
  edestruct H as (_ & _ & _ & _ & Hdb);
    [|vm_compute; reflexivity|rewrite Hdb; reflexivity].
  vm_compute. intros Hin. apply list_elem_of_singleton in Hin. discriminate.
Defined.

Lemma probed_at_return cfg table f sched s d :
  table !! d = None → d ∈ domains cfg → (0 < parallel cfg)%Z →
  run cfg sched (start cfg table f) = Ok s →
  Batch.main s = MDone →
  ∃ x, (d, x) ∈ probes (trace s).
Proof.
  intros Hnone Hd Hp Hrun Hm.
  pose proof (handled_at_return cfg table f sched s d Hp Hrun Hm) as Hh.
  apply count_elem_pos in Hd.
  assert (∀ c, c ∈ outcomes d (trace s) → ∃ x, (d, x) ∈ probes (trace s))
    as Hout.
  { intros c Hc. unfold outcomes in Hc.
    apply list_elem_of_fmap in Hc as ([d' x] & _ & Hin).
    apply list_elem_of_filter in Hin as [Heq Hin]. simpl in Heq. subst d'.
    eauto. }
  destruct (outcomes d (trace s)) as [|c l] eqn:E.
  - simpl in Hh.
    assert (d ∈ (knowns (trace s)).*1) as Hk by (apply count_pos_elem; lia).
    destruct (known_origin_run cfg table d f sched s Hrun) as [Hs|Hs];
      [by left|rewrite Hnone in Hs; by destruct Hs|].
    destruct Hs as (v & now & Hin).
    destruct (provenance_run cfg table f sched s Hrun) as [_ Hexec _].
    destruct (Hexec d v now None Hin) as (r & <- & _ & _ & x & Hx & _).
    eauto.
  - apply (Hout c). left.
Qed.

Lemma reported_at_return cfg table f sched s d x :
  run cfg sched (start cfg table f) = Ok s → Batch.main s = MDone →
  (d, x) ∈ probes (trace s) → result_of cfg d x ∈ reports (trace s).
Proof.
  intros Hrun Hm Hin.
  pose proof (wf_run cfg table f sched s Hrun) as Hwf.
  destruct (wf_done_all cfg s Hwf Hm) as [Hall Hrep].
  destruct (delivered_run cfg d x table f sched s Hrun Hin)
    as [Hs|(j & w & Hj & Hc)]; [by rewrite Hrep|].
  rewrite (Forall_lookup_1 _ _ _ _ Hall Hj) in Hc. done.
Qed.

(** X4. A listed domain that has no row when the batch starts is probed
    and reported: when [processFile] returns from a batch with at least
    one worker, the trace holds a probe of the domain, and the result of
    that probe is among the results that were printed. *)
Theorem unknown_domain_is_probed
    (cfg : config) (table : gmap string row) (f : option string)
    (sched : list action) (s : state) (d : string) :
  table !! d = None → d ∈ domains cfg → (0 < parallel cfg)%Z →
  run cfg sched (start cfg table f) = Ok s →
  Batch.main s = MDone →
  ∃ x, (d, x) ∈ probes (trace s) ∧
       result_of cfg d x ∈ reports (trace s).
Proof.
  intros Hnone Hd Hp Hrun Hm.
  destruct (probed_at_return cfg table f sched s d Hnone Hd Hp Hrun Hm)
    as [x Hx].
  exists x. split; [done|]. by eapply reported_at_return.
Qed.

Lemma unknown_domain_is_probed_witness :
  ∃ s, run cfg_good sched_good (start cfg_good ∅ None) = Ok s ∧
       ∃ x, ("auth.good.example", x) ∈ probes (trace s) ∧
            result_of cfg_good "auth.good.example" x ∈ reports (trace s).
Proof.
  eexists. split; [vm_compute; reflexivity|].
  apply (unknown_domain_is_probed cfg_good ∅ None sched_good);
    [reflexivity| |reflexivity|vm_compute; reflexivity
    |vm_compute; reflexivity].
  vm_compute. left.
Defined.

(** *** Domains that have a row *)

Lemma answered_step cfg d r a s s' :
  no_query_fault a → db s !! d = Some r →
  answered d (has_oidc r) s → step cfg a s = Ok s' →
  answered d (has_oidc r) s'.
Proof.
  intros Ha Hrow [Hw Hl] H.
  step_inv H.
  all: split; simpl in *.
  all: rewrite ?knowns_app, ?knowns_logs, ?app_nil_r; simpl; try done.
  all: try (apply Forall_insert; simpl; auto).
  all: try (apply Forall_app; split; [done|by repeat constructor]).
  all: try (intros ->; congruence).
  all: try congruence.
  all: rewrite ?knowns_logs, ?app_nil_r; try done.
  intros v' Hin. apply elem_of_app in Hin as [Hin|Hin]; [by apply Hl|].
  apply list_elem_of_singleton in Hin. simplify_eq.
  match goal with
  | H : workers _ !! _ = Some (WKnown _ _) |- _ =>
      apply (Forall_lookup_1 _ _ _ _ Hw H); done
  end.
Qed.

Lemma kept_answered_run cfg table f d r sched s :
  table !! d = Some r → Forall no_query_fault sched →
  run cfg sched (start cfg table f) = Ok s →
  kept d r s ∧ answered d (has_oidc r) s.
Proof.
  intros Hd Hsched Hrun.
  apply (run_invariant cfg no_query_fault
           (λ s, kept d r s ∧ answered d (has_oidc r) s)) with
    (sched := sched) (s := start cfg table f); try done.
  - intros a s1 s2 Ha [Hk Hans] Hs. split.
    + by eapply kept_step.
    + eapply answered_step; try done. by destruct Hk.
  - split; split; simpl; try done.
    intros v' Hin. by apply elem_of_nil in Hin.
Qed.

(** X5. A domain that has a row when the batch starts keeps exactly that
    row and is never probed, whatever else is in the list, as long as no
    lookup fails: at every point of the run the row is the one of the
    start, there is no probe of the domain, and every "already known"
    line for it shows the flag of the row. When [processFile] returns from
    a batch with at least one worker, there is one such line for each
    occurrence of the domain in the list. *)
Theorem stored_domain_is_kept_and_skipped
    (cfg : config) (table : gmap string row) (f : option string)
    (sched : list action) (s : state) (d : string) (r : row) :
  table !! d = Some r →
  Forall no_query_fault sched →
  run cfg sched (start cfg table f) = Ok s →
  db s !! d = Some r ∧
  outcomes d (trace s) = [] ∧
  (∀ v, (d, v) ∈ knowns (trace s) → v = has_oidc r) ∧
  ((0 < parallel cfg)%Z → Batch.main s = MDone →
   count d (knowns (trace s)).*1 = count d (domains cfg)).
Proof.
  intros Hd Hsched Hrun.
  destruct (kept_answered_run cfg table f d r sched s Hd Hsched Hrun)
    as [[Hrow _ Hp] [_ Hl]].
  split_and!; try done.
  intros Hpar Hm.
  pose proof (handled_at_return cfg table f sched s d Hpar Hrun Hm) as Hh.
  rewrite Hp in Hh. exact Hh.
Qed.

(** The list names the stored domain twice and a new domain once; the one
    worker reports the stored one twice and probes the new one. *)
Lemma stored_domain_is_kept_and_skipped_witness :
  ∃ s, run cfg_mixed sched_mixed (start cfg_mixed table_good None) = Ok s ∧
       Batch.main s = MDone ∧
       db s !! "auth.good.example" = Some (Row true "2024-01-01 00:00:00") ∧
       outcomes "auth.good.example" (trace s) = [] ∧
       count "auth.good.example" (knowns (trace s)).*1 = 2 ∧
       outcomes "new.example" (trace s) = [NotFound].
Proof.
  eexists. split; [vm_compute; reflexivity|].
  split; [vm_compute; reflexivity|].
  pose proof (λ s, stored_domain_is_kept_and_skipped cfg_mixed table_good
                     None sched_mixed s "auth.good.example"
                     (Row true "2024-01-01 00:00:00")) as H.
  edestruct H as (Hrow & Hp & _ & Hn);
    [reflexivity| |vm_compute; reflexivity|].
  { unfold sched_mixed. repeat (apply Forall_cons; split; [done|]).
    apply Forall_nil_2. }
  split; [exact Hrow|]. split; [exact Hp|].
  split; [rewrite Hn; reflexivity|vm_compute; reflexivity].
Defined.

(** *** The output file *)

(** X6. A batch only appends to the output file: at every point of the
    run a file that was there is still there, and its content starts with
    what it held at the start. The file is as it was at the start, not
    even created, when no output file is named or no probe of the run has
    found an endpoint. *)
Theorem output_file_only_grows
    (cfg : config) (table : gmap string row) (f : option string)
    (sched : list action) (s : state) :
  run cfg sched (start cfg table f) = Ok s →
  (is_Some f → is_Some (out s)) ∧
  (∃ rest, default "" (out s) = default "" f +:+ rest) ∧
  (outFile cfg = "" ∨
   Forall (λ p, classify p.2 ≠ Found) (probes (trace s)) →
   out s = f).
Proof.
  intros Hrun.
  destruct (file_grows_run cfg table f sched s Hrun) as [Hs Hrest].
  split_and!; try done.
  intros Hq. by destruct (file_kept_run cfg table f sched s Hrun Hq).
Qed.

Lemma output_file_only_grows_witness :
  ∃ s, run cfg_good sched_good (start cfg_good ∅ (Some "old")) = Ok s ∧
       ∃ rest, default "" (out s) = "old" +:+ rest.
Proof.
  eexists. split; [vm_compute; reflexivity|].
  pose proof (λ s, output_file_only_grows cfg_good ∅ (Some "old")
                     sched_good s) as H.
  edestruct H as (_ & Hrest & _); [vm_compute; reflexivity|].
  exact Hrest.
Defined.

(** *** A batch without work or without workers *)

(** X7. With an empty list, or with [parallel] zero or negative, the
    batch does nothing: no worker ever gets a domain, so at every point
    of the run nothing has been probed, printed or logged, and the table
    and the output file are as at the start. [processFile] still returns:
    from every such point there is a schedule that ends it. *)
Theorem nothing_to_do_changes_nothing
    (cfg : config) (table : gmap string row) (f : option string)
    (sched : list action) (s : state) :
  domains cfg = [] ∨ (parallel cfg ≤ 0)%Z →
  run cfg sched (start cfg table f) = Ok s →
  trace s = [] ∧ db s = table ∧ out s = f ∧
  ∃ sched' s', run cfg sched' s = Ok s' ∧ Batch.main s' = MDone ∧
               trace s' = [] ∧ db s' = table ∧ out s' = f.
Proof.
  intros Hc Hrun.
  destruct (idle_run cfg table f sched s Hc Hrun) as [Ht Hdb Hout _ _].
  split_and!; try done.
  destruct (run_completes cfg s (wf_run cfg table f sched s Hrun))
    as (sched' & s' & Hrun' & Hm).
  exists sched', s'. split; [done|]. split; [done|].
  assert (run cfg (sched ++ sched') (start cfg table f) = Ok s') as Hall.
  { by rewrite run_app, Hrun. }
  by destruct (idle_run cfg table f (sched ++ sched') s' Hc Hall).
Qed.

(** With [-parallel 0] the queue is filled and nobody reads it. *)
Lemma nothing_to_do_changes_nothing_witness :
  ∃ s, run cfg_none sched_none (start cfg_none ∅ None) = Ok s ∧
       Batch.main s = MDone ∧ domainChan s = ["a.example"] ∧
       trace s = [] ∧ db s = ∅.
Proof.
  eexists. split; [vm_compute; reflexivity|].
  split; [vm_compute; reflexivity|]. split; [vm_compute; reflexivity|].
  pose proof (λ s, nothing_to_do_changes_nothing cfg_none ∅ None
                     sched_none s) as H.
  edestruct H as (Ht & Hdb & _); [right; vm_compute; discriminate
                                 |vm_compute; reflexivity|].
  by rewrite Ht, Hdb.
Defined.

(** *** What is reported *)

(** X8. When [processFile] returns, it has printed one report line for
    each probe of the run: the result of every probe is among the results
    reported, every result reported is the result of a probe of the run,
    and there are as many reports as probes. *)
Theorem every_probe_is_reported
    (cfg : config) (table : gmap string row) (f : option string)
    (sched : list action) (s : state) :
  run cfg sched (start cfg table f) = Ok s →
  Batch.main s = MDone →
  (∀ d x, (d, x) ∈ probes (trace s) →
          result_of cfg d x ∈ reports (trace s)) ∧
  (∀ r, r ∈ reports (trace s) →
        ∃ x, (domain r, x) ∈ probes (trace s) ∧
             r = result_of cfg (domain r) x) ∧
  length (reports (trace s)) = length (probes (trace s)).
Proof.
  intros Hrun Hm.
  pose proof (wf_run cfg table f sched s Hrun) as Hwf.
  destruct (wf_done_all cfg s Hwf Hm) as [Hall Hrep].
  split_and!.
  - intros d x Hin.
    destruct (delivered_run cfg d x table f sched s Hrun Hin)
      as [Hs|(j & w & Hj & Hc)]; [by rewrite Hrep|].
    rewrite (Forall_lookup_1 _ _ _ _ Hall Hj) in Hc. done.
  - intros r Hr. rewrite Hrep in Hr.
    destruct (provenance_run cfg table f sched s Hrun) as [_ _ Hsends].
    destruct (Hsends r Hr) as (x & Hx & Heq).
    exists x. split; [done|]. unfold result_of. rewrite Heq.
    by destruct r.
  - rewrite Hrep, (carried_count cfg table f sched s Hrun).
    rewrite (total_all_done carrying _ eq_refl Hall). lia.
Qed.

Lemma every_probe_is_reported_witness :
  ∃ s, run cfg_dup2 sched_race (start cfg_dup2 ∅ None) = Ok s ∧
       length (reports (trace s)) = 2.
Proof.
  eexists. split; [vm_compute; reflexivity|].
  pose proof (λ s, every_probe_is_reported cfg_dup2 ∅ None sched_race s)
    as H.
  edestruct H as (_ & _ & Hlen);
    [vm_compute; reflexivity|vm_compute; reflexivity|].
  rewrite Hlen. vm_compute. reflexivity.
Defined.

(** *** From the lines of the file to the probes *)

Lemma queued_name_nonempty TrimSpace prefix line d :
  queued_name TrimSpace prefix line = Some d → d ≠ "".
Proof.
  unfold queued_name.
  destruct (String.eqb_spec (TrimSpace line) "") as [|Hne]; [done|].
  intros [= <-].
  destruct (String.eqb_spec prefix "") as [->|Hp]; simpl; [done|].
  destruct prefix; [done|]. discriminate.
Qed.

(** X9. Whatever [processFile] probes or writes to the table comes from a
    line of the file that is not blank: when the file can be read, every
    domain that a run probes or upserts is the trimmed text of such a
    line, with the prefix and a dot before it if a prefix is given, and
    it is never the empty name. A file that cannot be opened or read to
    the end gives no batch at all. *)
Theorem only_names_of_the_file_are_handled
    (TrimSpace : string → string) (src : Input.source)
    (prefix outFile : string) (parallel timeoutSecs : Z)
    (cfg : config) (table : gmap string row) (f : option string)
    (sched : list action) (s : state) :
  processFile TrimSpace src prefix outFile parallel timeoutSecs = Some cfg →
  run cfg sched (start cfg table f) = Ok s →
  ∃ lines, src = Input.Scanned lines false ∧
  ∀ d, ((∃ x, (d, x) ∈ probes (trace s)) ∨
        (∃ v now err, EvExec d v now err ∈ trace s)) →
       d ≠ "" ∧
       ∃ line, line ∈ lines ∧ TrimSpace line ≠ "" ∧
               d = if String.eqb prefix "" then TrimSpace line
                   else prefix +:+ "." +:+ TrimSpace line.
Proof.
  intros Hcfg Hrun. unfold processFile in Hcfg.
  destruct src as [|lines [|]]; try done. simplify_eq.
  exists lines. split; [done|]. intros d Hd.
  assert (d ∈ omap (queued_name TrimSpace prefix) lines) as Hin.
  { rewrite <- read_domains_omap.
    destruct Hd as [[x Hx]|(v & now & err & He)].
    - by apply (probe_listed _ _ _ _ _ _ _ Hrun Hx).
    - by apply (exec_listed _ _ _ _ _ _ _ _ _ Hrun He). }
  apply list_elem_of_omap in Hin as (line & Hline & Hq).
  split; [by eapply queued_name_nonempty|].
  exists line. split; [done|]. unfold queued_name in Hq.
  destruct (String.eqb_spec (TrimSpace line) "") as [|Hne]; [done|].
  split; [done|]. simplify_eq. by destruct (String.eqb prefix "").
Qed.

Lemma only_names_of_the_file_are_handled_witness :
  ∃ s, run cfg_good sched_good (start cfg_good ∅ None) = Ok s ∧
       ∀ d, (∃ x, (d, x) ∈ probes (trace s)) → d ≠ "".
Proof.
  eexists. split; [vm_compute; reflexivity|].
  pose proof (λ s, only_names_of_the_file_are_handled (λ l, l)
                     (Input.Scanned [""; "good.example"; ""] false)
                     "auth" "found.txt" 1 30 cfg_good ∅ None
                     sched_good s) as H.
  edestruct H as (lines & _ & Hall);
    [vm_compute; reflexivity|vm_compute; reflexivity|].
  intros d Hd. apply Hall. by left.
Defined.

(** *** The lines on standard output *)

Lemma tallied_step cfg a s s' :
  tallied cfg s → step cfg a s = Ok s' → tallied cfg s'.
Proof.
  unfold tallied. intros Hacc H. step_inv H.
  all: try match goal with
       | H : workers ?s !! ?i = Some ?w |- _ =>
           pose proof (λ w', total_insert waiting _ _ _ w' H) as Hins
       end.
  all: simpl in *.
  all: repeat match goal with
       | H : main _ = _ |- _ => rewrite H in *
       | H : domainChan _ = _ |- _ => rewrite H in *
       end; simpl in *.
  all: repeat (rewrite ?probes_app, ?knowns_app, ?length_app, ?total_app,
         ?probes_logs, ?knowns_logs in *; simpl in * ).
  all: try match goal with
       | |- context [total waiting (<[?i := ?w']> _)] =>
           specialize (Hins w'); simpl in Hins
       end.
  all: try lia.
Qed.

Lemma tallied_run cfg table f sched s :
  run cfg sched (start cfg table f) = Ok s → tallied cfg s.
Proof.
  apply (run_invariant_all cfg (tallied cfg)).
  - intros a s1 s2. apply tallied_step.
  - unfold tallied. simpl. lia.
Qed.

Lemma stdout_length (tr : list event) :
  length (stdout tr) = length (knowns tr) + length (reports tr).
Proof.
  induction tr as [|e tr IH]; [done|].
  change (stdout (e :: tr)) with (stdout_of e ++ stdout tr).
  change (knowns (e :: tr)) with
    (match e with EvKnown d v => [(d, v)] | _ => [] end ++ knowns tr).
  change (reports (e :: tr)) with
    (match e with EvReport r => [r] | _ => [] end ++ reports tr).
  rewrite !length_app, IH. destruct e; simpl; lia.
Qed.

(** X10. When [processFile] returns from a batch with at least one
    worker, it has printed exactly one line for each entry of the list:
    the "already known" lines and the report lines together are as many
    as the list is long, and each entry was either probed or reported as
    known. *)
Theorem one_line_per_listed_domain
    (cfg : config) (table : gmap string row) (f : option string)
    (sched : list action) (s : state) :
  (0 < parallel cfg)%Z →
  run cfg sched (start cfg table f) = Ok s →
  Batch.main s = MDone →
  length (stdout (trace s)) = length (domains cfg) ∧
  length (probes (trace s)) + length (knowns (trace s)) =
  length (domains cfg).
Proof.
  intros Hp Hrun Hm.
  pose proof (tallied_run cfg table f sched s Hrun) as Hacc.
  pose proof (wf_run cfg table f sched s Hrun) as Hwf.
  pose proof (drained_run cfg table f sched s Hrun) as Hdr.
  pose proof (carried_count cfg table f sched s Hrun) as Hcc.
  destruct (wf_done_all cfg s Hwf Hm) as [Hall Hrep].
  destruct Hwf as [Hmain _ _ _ _ _ _]. rewrite Hm in Hmain.
  destruct Hmain as (_ & _ & Hlen).
  unfold tallied in Hacc. rewrite Hm in Hacc. simpl in Hacc.
  rewrite (total_all_done waiting _ eq_refl Hall) in Hacc.
  rewrite (total_all_done carrying _ eq_refl Hall) in Hcc.
  destruct (workers s) as [|w ws] eqn:Hws; [simpl in Hlen; lia|].
  assert (w = WDone) as -> by (by inversion Hall).
  rewrite (Hdr 0) in Hacc by (by rewrite Hws).
  simpl in Hacc. rewrite stdout_length, Hrep. lia.
Qed.

Lemma one_line_per_listed_domain_witness :
  ∃ s, run cfg_mixed sched_mixed (start cfg_mixed table_good None) = Ok s ∧
       length (stdout (trace s)) = 3.
Proof.
  eexists. split; [vm_compute; reflexivity|].
  pose proof (λ s, one_line_per_listed_domain cfg_mixed table_good None
                     sched_mixed s) as H.
  edestruct H as (Hlen & _);
    [reflexivity|vm_compute; reflexivity|vm_compute; reflexivity|].
  exact Hlen.
Defined.

End AccountingFacts.

(** ** The other actions *)

Module CommandFacts.
Import Strings Probe Store OutFile Commands.

Lemma eqb_empty (s : string) : String.eqb s "" = false ↔ s ≠ "".
Proof. by rewrite String.eqb_neq. Qed.

(** X11. [addDomain] with a name that is not empty and a statement that
    runs ends without [log.Fatal], prints one line, and leaves a table in
    which the query for the name returns the flag that was given, whatever
    row the name had before; the rows of all other names are as before. *)
Theorem add_then_lookup (db : gmap string row) (now domain : string)
    (valid : bool) :
  domain ≠ "" →
  let o := addDomain db None now domain valid in
  fatal o = None ∧
  printed o =
    ["Added " +:+ domain +:+ " to " +:+ list_word valid +:+ " list" +:+ nl] ∧
  QueryRow_Scan (after o) None domain = (valid, None) ∧
  after o !! domain = Some (Row valid now) ∧
  ∀ other, other ≠ domain → after o !! other = db !! other.
Proof.
  intros Hd. unfold addDomain. apply eqb_empty in Hd. rewrite Hd. simpl.
  unfold QueryRow_Scan. rewrite lookup_insert_eq. repeat split; try done.
  intros other Hne. by rewrite lookup_insert_ne.
Qed.

Lemma add_then_lookup_witness :
  QueryRow_Scan
    (after (addDomain {["a.example" := Row false "t0"]} None "t1"
              "a.example" true))
    None "a.example" = (true, None).
Proof.
  by destruct (add_then_lookup {["a.example" := Row false "t0"]} "t1"
                 "a.example" true) as (_ & _ & H & _).
Defined.

(** X12. [addDomain] changes the table only when it succeeds: it ends in
    [log.Fatal] exactly when the name is empty or the statement fails, and
    then it has printed nothing and the table is as before. *)
Theorem add_fails_without_change (db : gmap string row)
    (fault : option string) (now domain : string) (valid : bool) :
  let o := addDomain db fault now domain valid in
  (fatal o ≠ None ↔ domain = "" ∨ fault ≠ None) ∧
  (domain = "" → fatal o = Some "Domain is empty") ∧
  (fatal o ≠ None → after o = db ∧ printed o = []).
Proof.
  unfold addDomain, Exec_upsert.
  destruct (String.eqb_spec domain "") as [->|Hne]; simpl.
  - repeat split; try done. by left.
  - destruct fault as [msg|]; simpl; repeat split; try done;
      try (intros [?|?]; done). by right.
Qed.

(** X13. [removeDomain] takes a name out of one list only. When the
    statement runs, the row of the name is deleted exactly when it has the
    flag that was given, and the line printed says which; a row with the
    other flag and the rows of all other names stay; afterwards the name
    has no row with that flag. *)
Theorem remove_only_from_its_list (db : gmap string row)
    (domain : string) (valid : bool) :
  let o := removeDomain db None domain valid in
  let listed := ∃ r, db !! domain = Some r ∧ has_oidc r = valid in
  fatal o = None ∧
  (listed →
     after o = delete domain db ∧
     printed o = ["Removed " +:+ domain +:+ " from " +:+ list_word valid +:+
                  " list" +:+ nl]) ∧
  (¬ listed →
     after o = db ∧
     printed o = ["Domain " +:+ domain +:+ " not found in " +:+
                  list_word valid +:+ " list" +:+ nl]) ∧
  (∀ r, after o !! domain = Some r → has_oidc r = negb valid) ∧
  (∀ other, other ≠ domain → after o !! other = db !! other).
Proof.
  unfold removeDomain, Exec_delete_where.
  destruct (db !! domain) as [r|] eqn:Hd.
  - destruct (Bool.eqb (has_oidc r) valid) eqn:Hb; simpl.
    + apply Bool.eqb_prop in Hb. split_and!; try done.
      * intros Hn. destruct Hn. eauto.
      * intros r'. by rewrite lookup_delete_eq.
      * intros other Hne. by rewrite lookup_delete_ne.
    + apply Bool.eqb_false_iff in Hb. split_and!; try done.
      * intros (r' & ? & ?). by simplify_eq.
      * intros r' Hr. simplify_eq.
        destruct (has_oidc r), valid; done.
  - simpl. split_and!; try done.
    + intros (r' & ? & ?). by simplify_eq.
    + intros r' Hr. by simplify_eq.
Qed.

(** X14. After [removeAny] with a statement that runs, the query for the
    name finds no row, so a batch probes the name again; the rows of all
    other names are as before; the line printed says whether there was a
    row; and a second [removeAny] finds nothing and changes nothing. *)
Theorem remove_any_forgets (db : gmap string row) (domain : string) :
  let o := removeAny db None domain in
  fatal o = None ∧
  QueryRow_Scan (after o) None domain = (false, Some ErrNoRows) ∧
  (∀ other, other ≠ domain → after o !! other = db !! other) ∧
  printed o =
    (if bool_decide (is_Some (db !! domain))
     then ["Removed " +:+ domain +:+ " from all lists" +:+ nl]
     else ["Domain " +:+ domain +:+ " not found" +:+ nl]) ∧
  removeAny (after o) None domain =
    Outcome ["Domain " +:+ domain +:+ " not found" +:+ nl] (after o) None.
Proof.
  unfold removeAny, Exec_delete, QueryRow_Scan.
  destruct (db !! domain) as [r|] eqn:Hd; simpl.
  - rewrite lookup_delete_eq. simpl. split_and!; try done.
    intros other Hne. by rewrite lookup_delete_ne.
  - rewrite Hd. simpl. split_and!; done.
Qed.

(** X15. Adding a name that has no row and removing it again, with
    [removeAny] or with [removeDomain] and the flag it was added with,
    gives the table back; [removeDomain] with the other flag keeps the row
    that was added. *)
Theorem add_then_remove (db : gmap string row) (now domain : string)
    (valid : bool) :
  domain ≠ "" →
  db !! domain = None →
  let added := after (addDomain db None now domain valid) in
  after (removeAny added None domain) = db ∧
  after (removeDomain added None domain valid) = db ∧
  after (removeDomain added None domain (negb valid)) = added.
Proof.
  intros Hd Hnone. unfold addDomain. apply eqb_empty in Hd. rewrite Hd.
  simpl. unfold removeAny, removeDomain, Exec_delete, Exec_delete_where.
  rewrite lookup_insert_eq. simpl.
  rewrite Bool.eqb_reflx. simpl.
  assert (Bool.eqb valid (negb valid) = false) as -> by (by destruct valid).
  simpl. rewrite delete_insert_id by done. done.
Qed.

Lemma add_then_remove_witness :
  after (removeAny
           (after (addDomain ∅ None "t1" "a.example" true)) None "a.example")
  = ∅.
Proof.
  by destruct (add_then_remove ∅ "t1" "a.example" true) as (H & _).
Defined.

Lemma Query_names_elem (db : gmap string row) (v : bool) (name : string) :
  name ∈ Query_names db v ↔ ∃ r, db !! name = Some r ∧ has_oidc r = v.
Proof.
  unfold Query_names. rewrite merge_sort_Permutation, list_elem_of_fmap.
  split.
  - intros ([k r] & -> & Hin). apply elem_of_map_to_list in Hin.
    apply map_lookup_filter_Some in Hin as [? ?]. eauto.
  - intros (r & Hr & Hv). exists (name, r). split; [done|].
    apply elem_of_map_to_list. by apply map_lookup_filter_Some.
Qed.

Lemma Query_names_NoDup (db : gmap string row) (v : bool) :
  NoDup (Query_names db v).
Proof.
  unfold Query_names. rewrite merge_sort_Permutation.
  apply NoDup_fst_map_to_list.
Qed.

Lemma Query_names_sorted (db : gmap string row) (v : bool) :
  StronglySorted String.le (Query_names db v).
Proof. apply StronglySorted_merge_sort; apply _. Qed.

Lemma delivered_rows_subseteq (cut : option nat) (rows : list string) :
  delivered_rows cut rows ⊆ rows.
Proof.
  destruct cut as [n|]; simpl; [|done].
  apply subseteq_take.
Qed.

(** X16. When both queries run and deliver all their rows, [listDomains]
    shows every row of the table exactly once: under "Valid domains:" the
    names whose flag is set, under "Invalid domains:" the others, each part
    in the order of the bytes of the names; the table is not changed. *)
Theorem list_shows_every_row_once (db : gmap string row) :
  let o := listDomains db (ListOracle None None None None) in
  fatal o = None ∧ after o = db ∧
  ∃ V I,
    printed o =
      ["Valid domains:" +:+ nl] ++ (name_line <$> V) ++
      [nl +:+ "Invalid domains:" +:+ nl] ++ (name_line <$> I) ∧
    StronglySorted String.le V ∧ StronglySorted String.le I ∧
    NoDup (V ++ I) ∧
    (∀ name, name ∈ V ↔ ∃ r, db !! name = Some r ∧ has_oidc r = true) ∧
    (∀ name, name ∈ I ↔ ∃ r, db !! name = Some r ∧ has_oidc r = false).
Proof.
  simpl. split_and!; try done.
  exists (Query_names db true), (Query_names db false).
  split_and!.
  - unfold listDomains. simpl. by rewrite <- !app_assoc.
  - apply Query_names_sorted.
  - apply Query_names_sorted.
  - apply NoDup_app. split_and!; try apply Query_names_NoDup.
    intros x Hx Hx'. apply Query_names_elem in Hx as (r & Hr & Hv).
    apply Query_names_elem in Hx' as (r' & Hr' & Hv'). congruence.
  - intros name. apply Query_names_elem.
  - intros name. apply Query_names_elem.
Qed.

(** X17. Whether or not a query fails or the rows of a query stop early,
    [listDomains] does not change the table; it ends in [log.Fatalf]
    exactly when a query fails; and every line it has printed is one of
    the two headings or the line of a name that has a row. *)
Theorem list_shows_only_rows (db : gmap string row) (o : list_oracle) :
  after (listDomains db o) = db ∧
  (fatal (listDomains db o) ≠ None ↔
     valid_fault o ≠ None ∨ invalid_fault o ≠ None) ∧
  ∀ line, line ∈ printed (listDomains db o) →
    line = "Valid domains:" +:+ nl ∨
    line = nl +:+ "Invalid domains:" +:+ nl ∨
    ∃ name, line = name_line name ∧ is_Some (db !! name).
Proof.
  assert (∀ cut v line,
    line ∈ name_line <$> delivered_rows cut (Query_names db v) →
    ∃ name, line = name_line name ∧ is_Some (db !! name)) as Hrows.
  { intros cut v line (name & -> & Hin)%list_elem_of_fmap.
    apply delivered_rows_subseteq, Query_names_elem in Hin as (r & Hr & _).
    eauto. }
  unfold listDomains.
  destruct (valid_fault o) as [m1|]; simpl.
  { split_and!; try done.
    - split; [by left|done].
    - intros line ->%list_elem_of_singleton. by left. }
  destruct (invalid_fault o) as [m2|]; simpl.
  - split_and!; try done.
    + split; [by right|done].
    + intros line Hin. apply elem_of_cons in Hin as [->|Hin]; [by left|].
      apply elem_of_app in Hin as [Hin|Hin]; [right; right; eauto|].
      apply list_elem_of_singleton in Hin as ->. by right; left.
  - split_and!; try done.
    + split; [done|]. by intros [?|?].
    + intros line Hin. apply elem_of_cons in Hin as [->|Hin]; [by left|].
      rewrite <- app_assoc in Hin.
      apply elem_of_app in Hin as [Hin|Hin]; [right; right; eauto|].
      apply elem_of_cons in Hin as [->|Hin]; [by right; left|].
      right; right; eauto.
Qed.

(** X18. [main] goes on to an action only when exactly one of the seven
    action flags is given, and the call it makes is the one of that flag,
    with the argument of an add or remove flag trimmed; the table it works
    on is the one of the database file, empty if the file had none. With
    no flag or with more than one it stops at the usage message, and
    otherwise it ends in [log.Fatalf] only when the database cannot be
    opened or the table cannot be created. *)
Theorem main_runs_the_one_action (TrimSpace : string → string) (fl : flags)
    (open_fault create_fault : option string)
    (file : option (gmap string row)) :
  let one := ∃ i, i < 7 ∧ chosen fl = <[i:=true]> (replicate 7 false) in
  match Commands.main TrimSpace fl open_fault create_fault file with
  | Ready t c =>
      t = default ∅ file ∧
      ∃ i, i < 7 ∧ chosen fl = <[i:=true]> (replicate 7 false) ∧
           c = cases TrimSpace fl !! i
  | Usage => ¬ one
  | Fatal _ => one ∧ (open_fault ≠ None ∨ create_fault ≠ None)
  end.
Proof.
  cbv zeta. unfold Commands.main, actions, switch, chosen, cases.
  generalize (given (fileFlag fl)), (given (addValid fl)),
    (given (addInvalid fl)), (given (rmValid fl)), (given (rmInvalid fl)),
    (given (rmAny fl)).
  intros b2 b3 b4 b5 b6 b7.
  destruct (listFlag fl), b2, b3, b4, b5, b6, b7; simpl;
    try (intros (i & Hi & Heq);
         do 7 (destruct i as [|i]; [discriminate Heq|]); lia);
    destruct open_fault, create_fault; simpl;
    repeat split; auto;
    first [ solve [exists 0; split_and!; first [lia | reflexivity]]
          | solve [exists 1; split_and!; first [lia | reflexivity]]
          | solve [exists 2; split_and!; first [lia | reflexivity]]
          | solve [exists 3; split_and!; first [lia | reflexivity]]
          | solve [exists 4; split_and!; first [lia | reflexivity]]
          | solve [exists 5; split_and!; first [lia | reflexivity]]
          | solve [exists 6; split_and!; first [lia | reflexivity]] ].
Qed.

(** X19. The count of the actions looks at the flag as given, the action
    at the trimmed flag: when [-add-valid] is the only action flag and its
    argument trims to nothing, [main] passes the check, opens the
    database, makes the table and calls [addDomain] with the empty name,
    which ends in [log.Fatal] with "Domain is empty" and leaves the table
    as it is. *)
Theorem blank_argument_passes_the_count
    (TrimSpace : string → string) (fl : flags)
    (file : option (gmap string row)) (fault : option string)
    (now : string) (o : list_oracle) :
  chosen fl = [false; false; true; false; false; false; false] →
  TrimSpace (addValid fl) = "" →
  ∃ c, Commands.main TrimSpace fl None None file =
         Ready (default ∅ file) (Some c) ∧
       perform c (default ∅ file) fault now o =
         Some (Outcome [] (default ∅ file) (Some "Domain is empty")).
Proof.
  unfold chosen. intros [= Hl Hf Hv Hi Hrv Hri Hra] Ht.
  exists (CallAdd "" true).
  unfold Commands.main, actions, switch.
  rewrite Hl, Hf, Hv, Hi, Hrv, Hri, Hra, Ht. simpl. done.
Qed.

Lemma blank_argument_passes_the_count_witness :
  ∃ c, Commands.main (λ s, if String.eqb s " " then "" else s)
         (Flags "domains.db" false "" " " "" "" "" "" "" "" 1 30)
         None None None = Ready ∅ (Some c) ∧
       perform c ∅ None "t1" (ListOracle None None None None) =
         Some (Outcome [] ∅ (Some "Domain is empty")).
Proof.
  apply (blank_argument_passes_the_count
           (λ s, if String.eqb s " " then "" else s)
           (Flags "domains.db" false "" " " "" "" "" "" "" "" 1 30)
           None None "t1" (ListOracle None None None None));
    reflexivity.
Defined.

End CommandFacts.

(** ** The actions together *)

Module ComposeFacts.
Import Strings Probe Store OutFile Batch Observe Invariants Examples.
Import RunFacts Accounting AccountingFacts Commands Scenarios.

(** X20. A domain that was put on a list by hand is not probed by a later
    batch: after [addDomain] has succeeded, a batch over the table it
    left, in which no lookup fails, never probes the domain and leaves
    its row as [addDomain] wrote it; every "already known" line for the
    domain shows the flag that was given. *)
Theorem added_domain_is_skipped_by_batch
    (cfg : config) (table : gmap string row) (f : option string)
    (now domain : string) (valid : bool)
    (sched : list action) (s : state) :
  domain ≠ "" →
  Forall no_query_fault sched →
  run cfg sched
    (start cfg (after (addDomain table None now domain valid)) f) = Ok s →
  db s !! domain = Some (Row valid now) ∧
  outcomes domain (trace s) = [] ∧
  ∀ v, (domain, v) ∈ knowns (trace s) → v = valid.
Proof.
  intros Hd Hsched Hrun.
  assert (after (addDomain table None now domain valid) !! domain =
          Some (Row valid now)) as Hrow.
  { unfold addDomain. apply String.eqb_neq in Hd. rewrite Hd. simpl.
    apply lookup_insert_eq. }
  destruct (kept_answered_run cfg _ f domain _ sched s Hrow Hsched Hrun)
    as [[Hkept _ Hp] [_ Hl]].
  done.
Qed.

(** The domain of [cfg_good] is added as invalid by hand; the batch of
    [sched_good] then reports it as known and does not probe it. *)
Lemma added_domain_is_skipped_by_batch_witness :
  ∃ s, run cfg_good (take 8 sched_good)
         (start cfg_good
            (after (addDomain ∅ None "t1" "auth.good.example" false))
            None) = Ok s ∧
       outcomes "auth.good.example" (trace s) = [] ∧
       knowns (trace s) = [("auth.good.example", false)].
Proof.
  eexists. split; [vm_compute; reflexivity|].
  split; [|vm_compute; reflexivity].
  pose proof (λ s, added_domain_is_skipped_by_batch cfg_good ∅ None "t1"
                     "auth.good.example" false (take 8 sched_good) s) as H.
  edestruct H as (_ & Hp & _); [done| |vm_compute; reflexivity|exact Hp].
  simpl. repeat (apply Forall_cons; split; [done|]). apply Forall_nil_2.
Defined.

(** X21. A domain that was removed with [removeAny] is probed again: when
    [processFile] returns from a batch with at least one worker that
    lists the domain, over the table that [removeAny] left, the batch has
    probed the domain, whatever row it had before the removal. *)
Theorem removed_domain_is_probed_again
    (cfg : config) (table : gmap string row) (f : option string)
    (d : string) (sched : list action) (s : state) :
  d ∈ domains cfg → (0 < parallel cfg)%Z →
  run cfg sched (start cfg (after (removeAny table None d)) f) = Ok s →
  Batch.main s = MDone →
  ∃ x, (d, x) ∈ probes (trace s).
Proof.
  intros Hd Hp Hrun Hm.
  apply (probed_at_return cfg (after (removeAny table None d)) f sched s d);
    try done.
  unfold removeAny, Exec_delete.
  destruct (table !! d) eqn:E; simpl; [apply lookup_delete_eq|done].
Qed.

Lemma removed_domain_is_probed_again_witness :
  ∃ s, run cfg_good sched_good
         (start cfg_good
            (after (removeAny table_good None "auth.good.example")) None)
       = Ok s ∧
       ∃ x, ("auth.good.example", x) ∈ probes (trace s).
Proof.
  eexists. split; [vm_compute; reflexivity|].
  apply (removed_domain_is_probed_again cfg_good table_good None
           "auth.good.example" sched_good);
    [vm_compute; left|reflexivity|vm_compute; reflexivity
    |vm_compute; reflexivity].
Defined.

End ComposeFacts.

(** ** Duplicates in the list *)

Module DuplicateFacts.
Import Strings Probe Store OutFile Batch Observe Invariants Examples.
Import RunFacts WorkerFacts BatchFacts EndFacts Accounting AccountingFacts.

(** C4, as amended. Every non-blank line of the file is put into the
    queue, in order and as often as it occurs, so a domain listed twice
    is queued twice: when the workers start, the queue holds the whole
    list. An occurrence is tested against the table only, by the query of
    the worker that takes it: the worker skips it as already known when
    the query returns a row, and probes it when the query finds no row or
    fails. For a domain without a row at the start, an occurrence is
    skipped only after an upsert of the domain has succeeded in the run.
    When [processFile] returns from a batch with at least one worker,
    every occurrence has been either probed or skipped, and a listed
    domain without a row at the start has been probed at least once. In
    every state of the run the table holds at most one row for the
    domain: the row written by the last upsert of the domain that
    succeeded, or else the row it had at the start. *)
Theorem duplicates_meet_only_in_the_table
    (TrimSpace : string → string) (prefix : string) (lines : list string)
    (cfg : config) (table : gmap string row) (f : option string)
    (sched : list action) (s : state) (d : string) :
  run cfg sched (start cfg table f) = Ok s →
  Input.read_domains TrimSpace prefix lines =
    omap (queued_name TrimSpace prefix) lines ∧
  (workers s = [] → (∃ i, Batch.main s = MSpawn i) →
     domainChan s = domains cfg) ∧
  (∀ i o, workers s !! i = Some (WQuery d) →
     step cfg (AWorker i o) s =
     Ok (set_worker i
           match query_fault o, db s !! d with
           | None, Some r => WKnown d (has_oidc r)
           | _, _ => WTest d
           end s)) ∧
  (table !! d = None →
   (d ∈ (knowns (trace s)).*1 ∨
    ∃ j v, workers s !! j = Some (WKnown d v)) →
   ∃ v now, EvExec d v now None ∈ trace s) ∧
  ((0 < parallel cfg)%Z → Batch.main s = MDone →
   length (outcomes d (trace s)) + count d (knowns (trace s)).*1 =
     count d (domains cfg) ∧
   (table !! d = None → d ∈ domains cfg →
    ∃ x, (d, x) ∈ probes (trace s))) ∧
  db s !! d =
    match last_persisted d (trace s) with
    | Some r => Some r
    | None => table !! d
    end.
Proof.
  intros Hrun. split_and!.
  - apply read_domains_omap.
  - intros Hw [i Hm].
    destruct (wf_run cfg table f sched s Hrun) as [Hmain _ _ _ _ _ _].
    rewrite Hm in Hmain. destruct Hmain as (_ & _ & _ & _ & Hq). auto.
  - intros i o Hi. rewrite (step_query cfg s i o d Hi).
    unfold QueryRow_Scan. by destruct (query_fault o), (db s !! d).
  - intros Hnone Hk.
    destruct (known_origin_run cfg table d f sched s Hrun Hk) as [Hs|Hs];
      [|done].
    rewrite Hnone in Hs. by destruct Hs.
  - intros Hp Hm. split.
    + by apply (handled_at_return cfg table f sched).
    + intros Hnone Hd. by apply (probed_at_return cfg table f sched).
  - by rewrite (db_replay cfg table f sched s Hrun), replay_lookup.
Qed.

(** The run [sched_race] of two workers probes both occurrences; the
    row left is the one of the only upsert. *)
Lemma duplicates_meet_only_in_the_table_witness :
  ∃ s, run cfg_dup2 sched_race (start cfg_dup2 ∅ None) = Ok s ∧
       probes (trace s) =
         [("dup.example", Response 404 "text/html");
          ("dup.example", DoError true)] ∧
       last_persisted "dup.example" (trace s) =
         Some (Row false "2024-06-01 12:00:00") ∧
       db s !! "dup.example" = Some (Row false "2024-06-01 12:00:00").
Proof.
  eexists. split; [vm_compute; reflexivity|].
  split; [vm_compute; reflexivity|]. split; [vm_compute; reflexivity|].
  pose proof (λ s, duplicates_meet_only_in_the_table
                     (λ l, l) "" ["dup.example"; "dup.example"]
                     cfg_dup2 ∅ None sched_race s "dup.example") as H.
  edestruct H as (_ & _ & _ & _ & _ & Hdb); [vm_compute; reflexivity|].
  rewrite Hdb. vm_compute. reflexivity.
Defined.

(** C4 as stated fails: with one worker, the default, the second
    occurrence of the domain finds the row of the first and is not
    probed. *)
Lemma second_occurrence_is_not_probed :
  ∃ s, run cfg_dup1 sched_seq (start cfg_dup1 ∅ None) = Ok s ∧
       Batch.main s = MDone ∧
       probes (trace s) = [("dup.example", Response 404 "text/html")] ∧
       stdout (trace s) =
         [known_line "dup.example" false;
          report_line (Result "dup.example" false "" false)].
Proof.
  eexists. split; [vm_compute; reflexivity|].
  repeat split; vm_compute; reflexivity.
Qed.

End DuplicateFacts.

(** ** A failed upsert does not stop the batch *)

Module FailureFacts.
Import Strings Probe Store OutFile Batch Observe Invariants Examples.
Import RunFacts WorkerFacts BatchFacts EndFacts Accounting AccountingFacts.
Import Scenarios.

Lemma worker_means_parallel cfg s i w :
  wf cfg s → workers s !! i = Some w → (0 < parallel cfg)%Z.
Proof.
  intros [Hmain _ _ _ _ _ _] Hi.
  assert (0 < length (workers s)) as Hlen.
  { apply lookup_lt_Some in Hi. lia. }
  destruct (Batch.main s); destruct_and?; try lia.
  match goal with H : workers s = [] |- _ => rewrite H in Hlen end.
  simpl in Hlen. lia.
Qed.

(** C8. A worker whose upsert fails leaves the table as it was. From
    there no schedule panics and the run can always be brought to the
    return of [processFile]; and in every run that reaches the return,
    the failure was logged, the result of the probe was sent on the
    result channel and printed by the loop of main, like any other, and
    the batch went on with the rest of the list: the queue is empty,
    every worker has left its loop at the end of the queue, and every
    occurrence of every domain of the list was probed or reported as
    known. *)
Theorem failed_upsert_is_logged_and_reported
    (cfg : config) (table : gmap string row) (f : option string)
    (sched : list action) (s : state) (i : nat) (r : domainResult)
    (o : oracle) (msg : string) :
  run cfg sched (start cfg table f) = Ok s →
  workers s !! i = Some (WExec r) →
  exec_fault o = Some msg →
  ∃ s1, step cfg (AWorker i o) s = Ok s1 ∧
        db s1 = db s ∧
        (∀ sched' m, run cfg sched' s1 ≠ Crash m) ∧
        (∃ sched' s', run cfg sched' s1 = Ok s' ∧ Batch.main s' = MDone) ∧
        (∀ sched' s',
           run cfg sched' s1 = Ok s' → Batch.main s' = MDone →
           EvLog (insert_failed_line (domain r) (ErrOther msg))
             ∈ trace s' ∧
           r ∈ sends (trace s') ∧
           r ∈ reports (trace s') ∧
           report_line r ∈ stdout (trace s') ∧
           domainChan s' = [] ∧
           Forall (λ w, w = WDone) (workers s') ∧
           ∀ d, length (outcomes d (trace s')) +
                count d (knowns (trace s')).*1 =
                count d (domains cfg)).
Proof.
  intros Hrun Hi Hex.
  pose proof (step_exec cfg s i o r Hi) as H1. rewrite Hex in H1.
  simpl in H1. eexists. split; [exact H1|]. split; [done|].
  set (s1 := emit _ _) in *.
  pose proof (wf_run cfg table f sched s Hrun) as Hwf.
  assert (wf cfg s1) as Hwf1 by (by apply wf_step with (AWorker i o) s).
  split; [intros; by apply run_no_crash_from|].
  split; [by apply run_completes|].
  intros sched' s' Hrun' Hdone.
  assert (owes i r (ErrOther msg) s1) as Ho.
  { left. subst s1. simpl. apply list_lookup_insert_eq.
    by eapply lookup_lt_Some. }
  pose proof (owes_run cfg _ _ _ _ _ _ Ho Hrun') as Ho'.
  pose proof (wf_run_from cfg _ _ _ Hwf1 Hrun') as Hwf'.
  destruct (wf_done_all cfg _ Hwf' Hdone) as [Hall Hrep].
  assert (∀ w, workers s' !! i = Some w → w = WDone) as Hw.
  { intros w Hw. by apply (Forall_lookup_1 _ _ _ _ Hall Hw). }
  destruct Ho' as [Ho'|[Hlog [Ho'|[Ho'|Ho']]]];
    try (by apply Hw in Ho').
  assert (run cfg (sched ++ AWorker i o :: sched') (start cfg table f) =
          Ok s') as Hall_run.
  { rewrite run_app, Hrun. simpl. simpl in H1. rewrite H1. exact Hrun'. }
  pose proof (worker_means_parallel cfg s i _ Hwf Hi) as Hp.
  split_and!; try done.
  - by rewrite Hrep.
  - rewrite <- Hrep in Ho'. unfold stdout, reports in *.
    apply list_elem_of_bind in Ho' as (ev & Hr & Hev).
    apply list_elem_of_bind. exists ev. split; [|done].
    destruct ev; simpl in *; try (by apply elem_of_nil in Hr).
    apply list_elem_of_singleton in Hr as ->. by apply list_elem_of_here.
  - by eapply drained_at_return.
  - intros d. by eapply handled_at_return.
Qed.

(** The batch of [cfg_two]: the upsert of the first domain fails with
    "disk I/O error"; the failure is logged and the result is printed,
    the first domain has no row, and the worker goes on to the second
    domain, which is probed, stored and printed. *)
Lemma failed_upsert_is_logged_and_reported_witness :
  ∃ s s1 s',
    run cfg_two sched_two_probe (start cfg_two ∅ None) = Ok s ∧
    workers s !! 0 = Some (WExec r_first) ∧
    step cfg_two (AWorker 0 o_io) s = Ok s1 ∧
    run cfg_two sched_two_rest s1 = Ok s' ∧
    db s' !! "first.example" = None ∧
    db s' !! "second.example" = Some (Row true "2024-06-01 12:00:01") ∧
    EvLog "Failed to insert first.example: disk I/O error" ∈ trace s' ∧
    stdout (trace s') =
      ["first.example: OIDC endpoint found ✅" +:+ nl;
       "second.example: OIDC endpoint found ✅" +:+ nl] ∧
    report_line r_first ∈ stdout (trace s') ∧
    length (outcomes "second.example" (trace s')) +
    count "second.example" (knowns (trace s')).*1 = 1.
Proof.
  pose proof (λ s, failed_upsert_is_logged_and_reported cfg_two ∅ None
                     sched_two_probe s 0 r_first o_io "disk I/O error")
    as H.
  edestruct H as (s1 & Hs1 & _ & _ & _ & Hall);
    [vm_compute; reflexivity | vm_compute; reflexivity | reflexivity |].
  eexists _, s1, _.
  split; [vm_compute; reflexivity|]. split; [reflexivity|].
  split; [exact Hs1|].
  vm_compute in Hs1. injection Hs1 as <-.
  split; [vm_compute; reflexivity|].
  split; [vm_compute; reflexivity|].
  split; [vm_compute; reflexivity|].
  edestruct (Hall sched_two_rest) as (Hlog & _ & _ & Hline & _ & _ & Hcnt);
    [vm_compute; reflexivity | reflexivity |].
  split; [exact Hlog|]. split; [vm_compute; reflexivity|].
  split; [exact Hline|]. exact (Hcnt "second.example").
Defined.

End FailureFacts.
